(** * DankCord: the reply parsing engine and the event cache

    A shallow embedding of [src/DankCord/objects.py]: the [Parser]
    extractors ([beg], [search], [common1], [crime], [postmemes], [buy],
    [sell], [cooldown], [check_cooldown]), the [CommandResult] record they
    build, and [Cache.clear].

    Representation.
    - A Python [str] is a [string]: the UTF-8 bytes of the text.  Every
      delimiter the code looks for is ASCII (or the three-byte glyph
      [⏣]), and UTF-8 never places an ASCII byte or the encoding of one
      character inside the encoding of another, so searching, splitting,
      replacing and the patterns below select the same spans on the bytes
      as Python selects on the code points.
    - [re.findall] is a backtracking matcher over the fragment of regular
      expressions the code uses: a sequence of single-character classes,
      each taken once or repeated greedily or lazily, with at most one
      capturing group.  The class [\d] is taken on ASCII digits only;
      Python also lets it match the decimal digits of other scripts, so
      the statement about the time tag asks for an ASCII tag.
    - A [dict] is a [gmap]; a key is a [str] or an [int].
    - An exception is a value of [exn]; a call that may raise returns
      [res].  A [try: ... except: pass] block becomes a [match] on the
      outcome that keeps the assignments made before the exception.
    - A [float] is the exact rational value of a finite binary64 number.
      A naive [datetime] is its wall-clock reading in microseconds; the
      clock of a call gives the instant of the call and the offset of local
      time from UTC. *)

From Stdlib Require Import ZArith Ascii String QArith Qabs.
From stdpp Require Import gmap strings list fin_maps.

Open Scope string_scope.
Open Scope Z_scope.

(** ** Python strings *)

Module PyStr.

(** [s.startswith(p)] *)
Fixpoint startswith (p s : string) : bool :=
  match p, s with
  | EmptyString, _ => true
  | String a p', String b s' => if Ascii.eqb a b then startswith p' s' else false
  | String _ _, EmptyString => false
  end.

(** [sub in s] *)
Fixpoint contains (sub s : string) : bool :=
  match s with
  | EmptyString => startswith sub EmptyString
  | String _ s' => if startswith sub s then true else contains sub s'
  end.

(** [s.replace(old, new)] for a non-empty [old]: the occurrences of [old]
    are taken from the left and do not overlap.  [skip] counts the
    characters of an occurrence still to be dropped. *)
Fixpoint replace_from (old new : string) (skip : nat) (s : string) : string :=
  match s with
  | EmptyString => EmptyString
  | String c s' =>
      match skip with
      | S k => replace_from old new k s'
      | O =>
          if startswith old s
          then new ++ replace_from old new (Nat.pred (String.length old)) s'
          else String c (replace_from old new 0 s')
      end
  end.

Definition replace (old new s : string) : string := replace_from old new 0 s.

(** [s.split(sep)] for a separator of one character. *)
Fixpoint split (sep : ascii) (s : string) : list string :=
  match s with
  | EmptyString => [EmptyString]
  | String c s' =>
      if Ascii.eqb c sep then EmptyString :: split sep s'
      else match split sep s' with
           | h :: t => String c h :: t
           | [] => [String c EmptyString]
           end
  end.

(** [sep.join(l)] *)
Fixpoint join (sep : string) (l : list string) : string :=
  match l with
  | [] => EmptyString
  | [x] => x
  | x :: l' => x ++ sep ++ join sep l'
  end.

(** [l.index(x)], [None] standing for the [ValueError] of an absent [x]. *)
Fixpoint index (x : string) (l : list string) : option nat :=
  match l with
  | [] => None
  | y :: l' => if String.eqb y x then Some O else option_map S (index x l')
  end.

Definition is_digit (c : ascii) : bool :=
  let n := nat_of_ascii c in (48 <=? n)%nat && (n <=? 57)%nat.

Definition digit_value (c : ascii) : Z := Z.of_nat (nat_of_ascii c) - 48.

Fixpoint all_chars (p : ascii -> bool) (s : string) : bool :=
  match s with
  | EmptyString => true
  | String c s' => p c && all_chars p s'
  end.

Fixpoint digits_value (acc : Z) (s : string) : Z :=
  match s with
  | EmptyString => acc
  | String c s' => digits_value (10 * acc + digit_value c) s'
  end.

(** [sys.int_info.default_max_str_digits]: since Python 3.11 [int] refuses
    a text of more digits. *)
Definition max_str_digits : nat := 4300.

(** [int(s)] on a string of decimal digits, the only strings the parser
    converts; [None] stands for the [ValueError] of any other string and
    of a string that is too long. *)
Definition int (s : string) : option Z :=
  match s with
  | EmptyString => None
  | _ =>
      if all_chars is_digit s && (String.length s <=? max_str_digits)%nat
      then Some (digits_value 0 s)
      else None
  end.

End PyStr.

(** ** Regular expressions and [re.findall] *)

Module Re.

Inductive cclass : Type :=
| Chr (c : ascii)      (* a literal character *)
| Digit                (* [0-9], \d *)
| Dot.                 (* . : any character but the newline *)

Inductive quant : Type :=
| Once                 (* x *)
| Plus                 (* x+ *)
| Star                 (* x* *)
| StarLazy.            (* x*? *)

Record atom : Type := Atom { a_class : cclass; a_quant : quant }.

(** A pattern is its atoms before the group, inside it and after it.  A
    pattern without a group has all its atoms in [r_group]: [findall]
    lists the group when there is one and the whole match otherwise. *)
Record regex : Type := Regex
  { r_before : list atom; r_group : list atom; r_after : list atom }.

Definition newline : ascii := ascii_of_nat 10.

Definition in_class (k : cclass) (c : ascii) : bool :=
  match k with
  | Chr a => Ascii.eqb a c
  | Digit => PyStr.is_digit c
  | Dot => negb (Ascii.eqb c newline)
  end.

(** A repeated class followed by the rest of the pattern [rest].  The
    greedy form prefers one more character and falls back on stopping;
    the lazy form prefers to stop.  [least] characters are still owed.
    The result is the text taken by the repetition and what [rest]
    returned. *)
Fixpoint repeat_class {A : Type} (greedy : bool) (least : nat) (k : cclass)
    (rest : string -> option A) (s : string) : option (string * A) :=
  let stop (_ : unit) :=
    match least with
    | O => option_map (pair EmptyString) (rest s)
    | S _ => None
    end in
  let more (_ : unit) :=
    match s with
    | String c s' =>
        if in_class k c
        then option_map (fun r => (String c (fst r), snd r))
               (repeat_class greedy (Nat.pred least) k rest s')
        else None
    | EmptyString => None
    end in
  if greedy
  then match more tt with Some r => Some r | None => stop tt end
  else match stop tt with Some r => Some r | None => more tt end.

(** The atoms matched in sequence at the head of [s], with backtracking:
    the text taken by each atom, in order. *)
Fixpoint match_seq (r : list atom) (s : string) : option (list string) :=
  match r with
  | [] => Some []
  | Atom k q :: r' =>
      let many greedy least :=
        option_map (fun x => fst x :: snd x)
          (repeat_class greedy least k (match_seq r') s) in
      match q with
      | Once =>
          match s with
          | String c s' =>
              if in_class k c
              then option_map (cons (String c EmptyString)) (match_seq r' s')
              else None
          | EmptyString => None
          end
      | Plus => many true 1%nat
      | Star => many true 0%nat
      | StarLazy => many false 0%nat
      end
  end.

Definition concat (l : list string) : string := foldr String.append EmptyString l.

(** A match at the head of [s]: what [findall] reports for it, and the
    number of characters of the whole match. *)
Definition match_at (re : regex) (s : string) : option (string * nat) :=
  match match_seq (r_before re ++ r_group re ++ r_after re) s with
  | Some segs =>
      Some (concat (take (length (r_group re)) (drop (length (r_before re)) segs)),
            String.length (concat segs))
  | None => None
  end.

(** The scan of [findall]: the leftmost match, then the leftmost match
    after its end, and so on.  [skip] counts the characters of the last
    match still to be passed.  No pattern of the parser matches the empty
    string, so nothing is tried at the end of the text. *)
Fixpoint findall_from (re : regex) (skip : nat) (s : string) : list string :=
  match s with
  | EmptyString => []
  | String _ s' =>
      match skip with
      | S k => findall_from re k s'
      | O =>
          match match_at re s with
          | Some (found, n) => found :: findall_from re (Nat.pred n) s'
          | None => findall_from re 0 s'
          end
      end
  end.

Definition findall (re : regex) (s : string) : list string := findall_from re 0 s.

(** The atom with which a pattern begins. *)
Definition first_atom (re : regex) : option atom :=
  head (r_before re ++ r_group re ++ r_after re).

(** The atoms of a literal text. *)
Fixpoint lit (s : string) : list atom :=
  match s with
  | EmptyString => []
  | String c s' => Atom (Chr c) Once :: lit s'
  end.

Definition whole (r : list atom) : regex := Regex [] r [].

End Re.

(** The patterns of the parser. *)

Module Pat.
Import Re.

(** ["\*\*⏣ [0-9]+\*\*"] *)
Definition coins : regex := whole (lit "**⏣ " ++ [Atom Digit Plus] ++ lit "**").
(** ["[0-9]+"] *)
Definition number : regex := whole [Atom Digit Plus].
(** ["\*\*(.*?)\*\*"] *)
Definition bold : regex := Regex (lit "**") [Atom Dot StarLazy] (lit "**").
(** ["<(.*?)\>"] *)
Definition tag : regex := Regex (lit "<") [Atom Dot StarLazy] (lit ">").
(** ["\*\*[0-9]+x"] *)
Definition amount : regex := whole (lit "**" ++ [Atom Digit Plus] ++ lit "x").
(** ["\*\*[0-9]+x .+\*\*"] *)
Definition amount_item : regex :=
  whole (lit "**" ++ [Atom Digit Plus] ++ lit "x " ++ [Atom Dot Plus] ++ lit "**").
(** ["\*\*.*\*"] *)
Definition catch : regex := whole (lit "**" ++ [Atom Dot Star] ++ lit "*").
(** ["[0-9]+x"] *)
Definition times : regex := whole ([Atom Digit Plus] ++ lit "x").
(** ["(\d+)"] *)
Definition timestamp : regex := Regex [] [Atom Digit Plus] [].

End Pat.

(** ** Exceptions *)

Inductive exn : Type := IndexError | ValueError | OverflowError.

Inductive res (A : Type) : Type :=
| Ok (a : A)
| Raise (e : exn).
Arguments Ok {A} a.
Arguments Raise {A} e.

#[global] Instance res_ret : MRet res := fun _ a => Ok a.
#[global] Instance res_bind : MBind res := fun _ _ f m =>
  match m with
  | Ok a => f a
  | Raise e => Raise e
  end.

(** [l[i]] *)
Definition getitem {A : Type} (l : list A) (i : nat) : res A :=
  match l !! i with
  | Some x => Ok x
  | None => Raise IndexError
  end.

(** [int(s)] *)
Definition py_int (s : string) : res Z :=
  match PyStr.int s with
  | Some n => Ok n
  | None => Raise ValueError
  end.

(** [try: x = e / except: pass] leaves [x] at [None] when [e] raises. *)
Definition attempt {A : Type} (m : res A) : option A :=
  match m with
  | Ok a => Some a
  | Raise _ => None
  end.

(** ** Floats and time *)

Module Float.

(** The integer nearest to [n / d] for [0 < d], a tie going to the even
    one. *)
Definition nearest_even (n d : Z) : Z :=
  let q := n / d in
  let r := n mod d in
  if 2 * r <? d then q
  else if d <? 2 * r then q + 1
  else if Z.even q then q else q + 1.

(** [2 ^ e] for an exponent of either sign. *)
Definition pow2 (e : Z) : Q :=
  if 0 <=? e then inject_Z (2 ^ e) else Qinv (inject_Z (2 ^ (- e))).

(** [a / d] brought to the exponent [e]: a fraction whose value is
    [a / d / 2 ^ e]. *)
Definition scaled (a d e : Z) : Z * Z :=
  if 0 <=? e then (a, d * 2 ^ e) else (a * 2 ^ (- e), d).

(** The exponent at which [a / d] has 53 bits, for [0 < a] and [0 < d]:
    [2 ^ 52 <= a / d / 2 ^ e < 2 ^ 53]. *)
Definition exponent (a d : Z) : Z :=
  let e0 := Z.log2 a - Z.log2 d - 53 in
  if fst (scaled a d e0) <? 2 ^ 53 * snd (scaled a d e0) then e0 else e0 + 1.

Definition mantissa (a d : Z) : Z :=
  nearest_even (fst (scaled a d (exponent a d))) (snd (scaled a d (exponent a d))).

(** The binary64 number nearest to [n / d] for [0 < d], as int / int
    division and the conversion of a decimal text give it.  The quotients
    formed here stay far inside the exponent range of binary64. *)
Definition of_ratio (n d : Z) : Q :=
  if n =? 0 then 0%Q
  else
    let a := Z.abs n in
    Qred (inject_Z (Z.sgn n * mantissa a d) * pow2 (exponent a d)).

(** [round(x, 2)]: the decimal with two places nearest to the exact value
    of [x], a tie going to the even one, and then the float nearest to
    that decimal. *)
Definition round2 (x : Q) : Q :=
  of_ratio (nearest_even (100 * Qnum x) (Z.pos (Qden x))) 100.

(** [bool(x)] *)
Definition truthy (x : Q) : bool := negb (Qnum x =? 0).

End Float.

(** The clock of a call.  Instants are counted in microseconds since the
    epoch: [now] is the instant of the call.  [utc_offset t] is the offset
    of local time from UTC at the second [t], in seconds, and
    [max_timestamp] the last second [datetime.fromtimestamp] accepts (the
    end of year 9999 in local time). *)
Record clock : Type := Clock { now : Z; utc_offset : Z -> Z; max_timestamp : Z }.

(** The naive local [datetime] of an instant: its wall-clock reading, in
    microseconds. *)
Definition local (k : clock) (instant : Z) : Z :=
  instant + utc_offset k (instant / 1000000) * 1000000.

(** [datetime.now()] *)
Definition datetime_now (k : clock) : Z := local k (now k).

(** [datetime.fromtimestamp(t)] for an integer [t] that is not negative.
    Past the last second Python raises [ValueError] or, for a [t] beyond
    the platform's [time_t], [OverflowError]; [OverflowError] stands for
    both. *)
Definition fromtimestamp (k : clock) (t : Z) : res Z :=
  if t <=? max_timestamp k then Ok (local k (t * 1000000)) else Raise OverflowError.

(** [(a - b).total_seconds()]: the difference is a whole number of
    microseconds, divided by [10 ** 6] as a float. *)
Definition total_seconds (microseconds : Z) : Q :=
  Float.of_ratio microseconds 1000000.

(** ** CommandResult *)

Inductive pyval : Type :=
| VInt (n : Z)
| VStr (s : string)
| VItems (l : list (Z * option string)).   (* [{amount: name}, ...] *)

Abbreviation pydict := (gmap (string + Z) pyval).

Definition kstr (s : string) : string + Z := inl s.
Definition kint (n : Z) : string + Z := inr n.

Record CommandResult : Type := mkCommandResult
  { success : bool;
    death : option bool;
    gain : option pydict;
    loss : option pydict;
    cooldown : option Q }.

(** [CommandResult.__init__] *)
Definition CommandResult_init (success : bool) (death : option bool)
    (gain loss : option pydict) (cooldown : option Q) : CommandResult :=
  {| success := success;
     death := death;
     gain := gain;
     loss := loss;
     cooldown :=
       match cooldown with
       | Some c => if Float.truthy c then Some (Float.round2 c) else Some c
       | None => None
       end |}.

(** The default of the parameters [gain] and [loss]: [{}].  Nothing in the
    parser writes to a dictionary after it was handed to a result. *)
Definition default_dict : option pydict := Some ∅.

(** ** Parser *)

Module Parser.
Import PyStr Re.

(** Python truth values: [None] and [0] are false, [None] and [""] are
    false. *)
Definition truthy_int (x : option Z) : bool :=
  match x with
  | Some n => negb (n =? 0)
  | None => false
  end.

Definition truthy_str (x : option string) : bool :=
  match x with
  | Some s => negb (String.eqb s "")
  | None => false
  end.

Definition is_some {A : Type} (x : option A) : bool :=
  match x with
  | Some _ => true
  | None => false
  end.

(** [description.replace(",", "")] *)
Definition strip_commas (description : string) : string :=
  replace "," "" description.

(** [int(findall(gain_regex[1], findall(gain_regex[0], temp_desc)[0])[0])],
    the coin amount of [beg], [search] and [crime]. *)
Definition coin_amount (temp_desc : string) : res Z :=
  m ← getitem (findall Pat.coins temp_desc) 0;
  n ← getitem (findall Pat.number m) 0;
  py_int n.

(** ["<" + findall(tag, item)[0] + "> "] *)
Definition tempstring (item : string) : res string :=
  t ← getitem (findall Pat.tag item) 0;
  Ok ("<" ++ t ++ "> ").

(** The second [try] block of [beg].  In the branch without coins the
    statement [item = item.replace(tempstring, "")] reads the local [item],
    which nothing in [beg] binds: it raises, the block is left, and
    [gained_item] keeps the bold span as it was found. *)
Definition beg_item (gained_coins : option Z) (temp_desc : string) : option string :=
  if negb (truthy_int gained_coins)
  then
    match getitem (findall Pat.bold temp_desc) 0 with
    | Raise _ => None
    | Ok gained_item =>
        match tempstring gained_item with
        | Raise _ => Some gained_item
        | Ok _ => Some gained_item
        end
    end
  else
    match getitem (findall Pat.bold temp_desc) 1 with
    | Raise _ => None
    | Ok gained_item =>
        match tempstring gained_item with
        | Raise _ => Some gained_item
        | Ok t => Some (replace t "" gained_item)
        end
    end.

(** [if gained_coins: gain["coins"] = gained_coins] *)
Definition put_coins (gained_coins : option Z) (gain : pydict) : pydict :=
  match gained_coins with
  | Some n => if truthy_int gained_coins then <[kstr "coins" := VInt n]> gain else gain
  | None => gain
  end.

(** [if item: gain["items"] = [{1: item}]] *)
Definition put_item (item : option string) (gain : pydict) : pydict :=
  if truthy_str item then <[kstr "items" := VItems [(1, item)]]> gain else gain.

Definition beg (description : string) : CommandResult :=
  let temp_desc := strip_commas description in
  let death := None in
  let gained_coins := attempt (coin_amount temp_desc) in
  let gained_item := beg_item gained_coins temp_desc in
  let gain := put_item gained_item (put_coins gained_coins ∅) in
  let success := is_some gained_coins || is_some gained_item in
  CommandResult_init success death (Some gain) default_dict None.

(** The first [try] block of [search]: [item_amount] and [item]. *)
Definition search_item (temp_desc : string) : option Z * option string :=
  match
    (m ← getitem (findall Pat.amount temp_desc) 0;
     py_int (replace "x" "" (replace "**" "" m)))
  with
  | Raise _ => (None, None)
  | Ok item_amount =>
      match getitem (findall Pat.amount_item temp_desc) 0 with
      | Raise _ => (Some item_amount, None)
      | Ok m =>
          (Some item_amount,
           Some (join " " (drop 2 (split " " (replace "**" "" m)))))
      end
  end.

Definition search (description : string) : CommandResult :=
  let temp_desc := strip_commas description in
  let '(item_amount, item) := search_item temp_desc in
  let death := None in
  let gained_coins := attempt (coin_amount temp_desc) in
  let success := is_some gained_coins in
  let gain := put_coins gained_coins ∅ in
  let gain :=
    match item_amount with
    | Some n =>
        if truthy_int item_amount then <[kstr "items" := VItems [(n, item)]]> gain
        else gain
    | None => gain
    end in
  CommandResult_init success death (Some gain) default_dict None.

Definition common1 (description : string) : CommandResult :=
  let temp_desc := strip_commas description in
  let death := None in
  let gained_items :=
    attempt
      (m ← getitem (findall Pat.catch temp_desc) 0;
       Ok (join " " (drop 1 (split " " (replace "**" "" m))))) in
  let success := is_some gained_items in
  let gain := put_item gained_items ∅ in
  CommandResult_init success death (Some gain) default_dict None.

(** The second [try] block of [crime]. *)
Definition crime_item (gained_coins : option Z) (temp_desc : string) : option string :=
  let pick (i : nat) :=
    match getitem (findall Pat.bold temp_desc) i with
    | Raise _ => None
    | Ok item =>
        match tempstring item with
        | Raise _ => Some item
        | Ok t => Some (replace t "" item)
        end
    end in
  if negb (truthy_int gained_coins) then pick 0%nat else pick 1%nat.

Definition crime (description : string) : CommandResult :=
  let temp_desc := strip_commas description in
  let death := None in
  let gained_coins := attempt (coin_amount temp_desc) in
  let item := crime_item gained_coins temp_desc in
  let gain := put_item item (put_coins gained_coins ∅) in
  let success := is_some gained_coins || is_some item in
  CommandResult_init success death (Some gain) default_dict None.

(** [parsed]: the lines after the third, from the first line that is
    exactly the marker when there is one. *)
Definition postmemes_lines (description : string) : list string :=
  let parsed := drop 3 (split Re.newline (strip_commas description)) in
  match index "**You Received:**" parsed with
  | Some i => drop i parsed
  | None => parsed
  end.

(** [gain["items"].append({amount: item})] *)
Definition append_item (amount : Z) (item : string) (gain : pydict) : pydict :=
  match gain !! kstr "items" with
  | Some (VItems l) => <[kstr "items" := VItems (l ++ [(amount, Some item)])]> gain
  | _ => gain
  end.

(** One turn of the loop of [postmemes] on the line [i]. *)
Definition postmemes_line (gain : pydict) (i : string) : res pydict :=
  if contains "⏣" i then
    m ← getitem (findall Pat.number i) 0;
    n ← py_int m;
    Ok (<[kstr "coins" := VInt n]> gain)
  else if contains "<:" i then
    let gain :=
      match gain !! kstr "items" with
      | None => <[kstr "items" := VItems []]> gain
      | Some _ => gain
      end in
    m ← getitem (findall Pat.times i) 0;
    amount ← py_int (replace "x" "" m);
    let item := join " " (drop 5 (split " " i)) in
    Ok (append_item amount item gain)
  else Ok gain.

Fixpoint postmemes_loop (gain : pydict) (parsed : list string) : res pydict :=
  match parsed with
  | [] => Ok gain
  | i :: parsed' => gain' ← postmemes_line gain i; postmemes_loop gain' parsed'
  end.

Definition postmemes (description : string) : res CommandResult :=
  let parsed := postmemes_lines description in
  let death := None in
  if contains "**You Received" description then
    gain ← postmemes_loop ∅ parsed;
    Ok (CommandResult_init true death (Some gain) default_dict None)
  else Ok (CommandResult_init false death (Some ∅) default_dict None).

(** [int(findall(regex[1], findall(regex[0], temp_desc)[i])[0])] *)
Definition price (i : nat) (temp_desc : string) : res Z :=
  b ← getitem (findall Pat.bold temp_desc) i;
  m ← getitem (findall Pat.number b) 0;
  py_int m.

Definition buy (description item : string) (quantity : Z) : res CommandResult :=
  if contains "bought" description && contains "and paid" description then
    let temp_desc := strip_commas description in
    paid ← price 1 temp_desc;
    Ok (CommandResult_init true None (Some {[kint quantity := VStr item]})
          (Some {[kstr "coins" := VInt paid]}) None)
  else Ok (CommandResult_init false None None None None).

Definition sell (description item : string) (quantity : Z) : res CommandResult :=
  if contains "sold" description && contains "and got paid" description then
    let temp_desc := strip_commas description in
    earned ← price 0 temp_desc;
    Ok (CommandResult_init true None (Some {[kstr "coins" := VInt earned]})
          (Some {[kint quantity := VStr item]}) None)
  else Ok (CommandResult_init false None None None None).

(** The timestamp of the first [<...>] span:
    [int(findall(cooldown_regex[1], findall(cooldown_regex[0], description)[0])[0])] *)
Definition tagged_time (description : string) : res Z :=
  span ← getitem (findall Pat.tag description) 0;
  m ← getitem (findall Pat.timestamp span) 0;
  py_int m.

Definition cooldown (k : clock) (description : string) : res CommandResult :=
  t ← tagged_time description;
  time ← fromtimestamp k t;
  let difference := total_seconds (time - datetime_now k) in
  Ok (CommandResult_init false None (Some ∅) default_dict (Some difference)).

Definition check_cooldown (description : string) : bool :=
  contains "seconds" description && contains "command" description
  && contains "cooldown is" description && contains "seconds" description.

End Parser.

(** ** Cache *)

Module Cache.

(** The event store.  [Id] is the type of message identifiers and
    [Payload] the type of the stored events. *)
Record t (Id Payload : Type) `{Countable Id} : Type := mk
  { nonce_message_map : gmap string Id;
    interaction_create : list string;
    interaction_success : list string;
    raw_message_updates : list Payload;
    message_create : gmap string Payload;
    message_updates : gmap Id Payload }.
Arguments mk {Id Payload _ _}.
Arguments nonce_message_map {Id Payload _ _}.
Arguments interaction_create {Id Payload _ _}.
Arguments interaction_success {Id Payload _ _}.
Arguments raw_message_updates {Id Payload _ _}.
Arguments message_create {Id Payload _ _}.
Arguments message_updates {Id Payload _ _}.

(** [if x in l: l.remove(x)]: the first occurrence goes. *)
Fixpoint remove_first (x : string) (l : list string) : list string :=
  match l with
  | [] => []
  | y :: l' => if String.eqb y x then l' else y :: remove_first x l'
  end.

Definition clear {Id Payload : Type} `{Countable Id}
    (nonce : string) (c : t Id Payload) : t Id Payload :=
  let '(nonces, updates) :=
    match nonce_message_map c !! nonce with
    | Some relevant_id =>
        (delete nonce (nonce_message_map c), delete relevant_id (message_updates c))
    | None => (nonce_message_map c, message_updates c)
    end in
  {| nonce_message_map := nonces;
     interaction_create := remove_first nonce (interaction_create c);
     interaction_success := remove_first nonce (interaction_success c);
     raw_message_updates := [];
     message_create := delete nonce (message_create c);
     message_updates := updates |}.

End Cache.

(** ** Config *)

Module Config.

(** What [__init__] raises: [ValueError] with its message, or the
    [AssertionError] of a failed [assert] with its message. *)
Inductive error : Type :=
| Value (message : string)
| Assertion (message : string).

Record t : Type := mk
  { token : string;
    channel_id : Z;
    dm_mode : bool;
    resource_intensivity : string }.

Inductive outcome : Type :=
| Built (c : t)
| Failed (e : error).

(** [s.upper()] on an ASCII text: the letters [a] to [z] go to [A] to [Z].
    (Outside ASCII Python maps some letters to ASCII ones, so the
    statements take the option in ASCII.) *)
Definition upper_char (c : ascii) : ascii :=
  let n := nat_of_ascii c in
  if (97 <=? n)%nat && (n <=? 122)%nat then ascii_of_nat (n - 32) else c.

Fixpoint upper (s : string) : string :=
  match s with
  | EmptyString => EmptyString
  | String c s' => String (upper_char c) (upper s')
  end.

(** [Config.__init__] on arguments of the annotated types: a [str] token,
    an optional [int] channel, a [bool] and a [str] option.  The two
    [isinstance] assertions hold for such arguments. *)
Definition init (token : string) (channel_id : option Z) (dm_mode : bool)
    (resource_intensivity : string) : outcome :=
  if String.eqb token "" then Failed (Value "No token provided.")
  else
    match channel_id with
    | None => Failed (Value "No channel_id provided.")
    | Some id =>
        if id =? 0 then Failed (Value "No channel_id provided.")
        else if String.eqb (upper resource_intensivity) "DISK"
                || String.eqb (upper resource_intensivity) "MEM"
        then Built (mk token id dm_mode (upper resource_intensivity))
        else
          Failed
            (Assertion "Resource intensivity option must be either DISK or MEM.")
    end.

End Config.

(** ** Vocabulary of the statements *)

(** The family extractors of [Parser] under one name, [buy] and [sell]
    with the item and the quantity their caller supplies. *)
Inductive family : Type :=
| Beg
| Search
| Common1
| Crime
| Postmemes
| Buy (item : string) (quantity : Z)
| Sell (item : string) (quantity : Z).

Definition run (f : family) (description : string) : res CommandResult :=
  match f with
  | Beg => Ok (Parser.beg description)
  | Search => Ok (Parser.search description)
  | Common1 => Ok (Parser.common1 description)
  | Crime => Ok (Parser.crime description)
  | Postmemes => Parser.postmemes description
  | Buy item quantity => Parser.buy description item quantity
  | Sell item quantity => Parser.sell description item quantity
  end.

(** The results of the parsing engine: what a family extractor or
    [Parser.cooldown] returns on some text. *)
Inductive produced (r : CommandResult) : Prop :=
| produced_by_family (f : family) (description : string) :
    run f description = Ok r -> produced r
| produced_by_cooldown (k : clock) (description : string) :
    Parser.cooldown k description = Ok r -> produced r.

(** The primary signal of a family, the test that decides [success] in
    its extractor: a coin amount or a bold span for [beg] and [crime], a
    coin amount for [search], a [**...*] span for [common1], the text
    [**You Received] for [postmemes], the two confirmation phrases for
    [buy] and [sell]. *)
Definition signal (f : family) (description : string) : bool :=
  let temp_desc := Parser.strip_commas description in
  let coins := Parser.is_some (attempt (Parser.coin_amount temp_desc)) in
  match f with
  | Beg | Crime =>
      coins || Parser.is_some (Re.findall Pat.bold temp_desc !! 0%nat)
  | Search => coins
  | Common1 => Parser.is_some (Re.findall Pat.catch temp_desc !! 0%nat)
  | Postmemes => PyStr.contains "**You Received" description
  | Buy _ _ =>
      PyStr.contains "bought" description && PyStr.contains "and paid" description
  | Sell _ _ =>
      PyStr.contains "sold" description && PyStr.contains "and got paid" description
  end.

(** A gain or loss without an entry: the empty mapping, or no mapping at
    all. *)
Definition holds_nothing (g : option pydict) : Prop := g = None \/ g = Some ∅.

(** The item name that [beg] and [crime] record in [gain]. *)
Definition recorded_item (r : CommandResult) : option string :=
  match gain r with
  | Some g =>
      match g !! kstr "items" with
      | Some (VItems [(_, Some name)]) => Some name
      | _ => None
      end
  | None => None
  end.

(** The bold span from which [beg] and [crime] take the item: the second
    when a coin amount was found, the first otherwise. *)
Definition item_span (description : string) : option string :=
  let temp_desc := Parser.strip_commas description in
  let coins := attempt (Parser.coin_amount temp_desc) in
  Re.findall Pat.bold temp_desc !! (if Parser.truthy_int coins then 1%nat else 0%nat).

(** What [crime] makes of the bold span [span], and [beg] when it found
    coins: every occurrence of ["<" + t + "> "] is removed, [t] being the
    first [<...>] span inside [span]; a span without one is kept. *)
Definition stripped (span : string) : string :=
  match Re.findall Pat.tag span with
  | [] => span
  | t :: _ => PyStr.replace ("<" ++ t ++ "> ") "" span
  end.

(** A buying or selling extractor. *)
Definition is_trade (f : family) : bool :=
  match f with
  | Buy _ _ | Sell _ _ => true
  | _ => false
  end.

(** [s] has none of the characters [cs]. *)
Definition lacks (cs : list ascii) (s : string) : bool :=
  PyStr.all_chars (fun c => negb (existsb (Ascii.eqb c) cs)) s.

(** [s] is empty or begins with a character that is not a digit. *)
Definition ends_number (s : string) : bool :=
  match s with
  | EmptyString => true
  | String c _ => negb (PyStr.is_digit c)
  end.

(** A text of decimal digits, at least one and no more than [int]
    accepts. *)
Definition is_number (s : string) : bool :=
  negb (String.eqb s "") && PyStr.all_chars PyStr.is_digit s
  && (String.length s <=? PyStr.max_str_digits)%nat.

(** A text without a digit. *)
Definition no_digit (s : string) : bool :=
  PyStr.all_chars (fun c => negb (PyStr.is_digit c)) s.

(** A text of ASCII characters. *)
Definition ascii_only (s : string) : bool :=
  PyStr.all_chars (fun c => (nat_of_ascii c <? 128)%nat) s.

(** The number a text of decimal digits denotes. *)
Definition decimal (s : string) : Z := PyStr.digits_value 0 s.

(** The [items] list of a gain. *)
Definition items_of (g : pydict) : list (Z * option string) :=
  match g !! kstr "items" with
  | Some (VItems l) => l
  | _ => []
  end.

(** The lines on which the loop of [postmemes] acts: a line with the coin
    sign sets the coins, another line with ["<:"] adds an item. *)
Definition coin_line (i : string) : bool := PyStr.contains "⏣" i.
Definition item_line (i : string) : bool :=
  negb (PyStr.contains "⏣" i) && PyStr.contains "<:" i.

(** The ["items"] entry of a gain is a list, or is missing. *)
Definition items_wf (g : pydict) : Prop :=
  match g !! kstr "items" with
  | Some (VItems _) | None => True
  | Some _ => False
  end.

(** * Properties *)

(** ** Strings *)

Section Strings.
Import PyStr.

Lemma ascii_eqb_refl (c : ascii) : Ascii.eqb c c = true.
Proof. apply Ascii.eqb_eq. reflexivity. Qed.

Lemma append_cons (c : ascii) (a b : string) : String c a ++ b = String c (a ++ b).
Proof. reflexivity. Qed.

Lemma append_nil_l (a : string) : "" ++ a = a.
Proof. reflexivity. Qed.

Lemma startswith_app (p s : string) : startswith p (p ++ s) = true.
Proof.
  induction p as [|c p IH]; [reflexivity|].
  rewrite append_cons. simpl. rewrite ascii_eqb_refl. exact IH.
Qed.

Lemma startswith_app_l (a b s : string) :
  startswith (a ++ b) s = true -> startswith a s = true.
Proof.
  revert s. induction a as [|c a IH]; intros s.
  - reflexivity.
  - rewrite append_cons. simpl. destruct s as [|d s]; [discriminate|].
    destruct (Ascii.eqb c d); [apply IH | discriminate].
Qed.

Lemma contains_app_l (a b s : string) :
  contains (a ++ b) s = true -> contains a s = true.
Proof.
  induction s as [|c s IH]; simpl.
  - apply startswith_app_l.
  - destruct (startswith (a ++ b) (String c s)) eqn:E.
    + intros _. rewrite (startswith_app_l _ _ _ E). reflexivity.
    + intros H. rewrite (IH H). destruct (startswith a (String c s)); reflexivity.
Qed.

Lemma append_assoc (a b c : string) : (a ++ b) ++ c = a ++ (b ++ c).
Proof.
  induction a as [|x a IH]; [reflexivity|].
  rewrite !append_cons, IH. reflexivity.
Qed.

Lemma append_nil_r (a : string) : a ++ "" = a.
Proof.
  induction a as [|x a IH]; [reflexivity|].
  rewrite append_cons, IH. reflexivity.
Qed.

Lemma length_append (a b : string) :
  String.length (a ++ b) = (String.length a + String.length b)%nat.
Proof.
  induction a as [|x a IH]; [reflexivity|].
  rewrite append_cons. simpl. rewrite IH. reflexivity.
Qed.

(** Dropping the rest of an occurrence. *)
Lemma replace_from_skip (old new p s : string) :
  replace_from old new (String.length p) (p ++ s) = replace_from old new 0 s.
Proof.
  induction p as [|c p IH].
  - destruct s; reflexivity.
  - rewrite append_cons. simpl. exact IH.
Qed.

(** A text that lacks the first character of [old] has no occurrence of
    it. *)
Lemma replace_absent (x : ascii) (old new s : string) :
  lacks [x] s = true -> replace (String x old) new s = s.
Proof.
  unfold replace, lacks. induction s as [|c s IH]; simpl.
  - reflexivity.
  - rewrite orb_false_r. destruct (Ascii.eqb c x) eqn:E; simpl; [discriminate|].
    rewrite Ascii.eqb_sym, E. intros H. rewrite (IH H). reflexivity.
Qed.

(** An occurrence at the head followed by a text without another one. *)
Lemma replace_head (x : ascii) (old s : string) :
  lacks [x] s = true ->
  replace (String x old) "" (String x old ++ s) = s.
Proof.
  intros H. unfold replace. rewrite append_cons. simpl.
  rewrite ascii_eqb_refl, startswith_app, append_nil_l, replace_from_skip.
  apply (replace_absent x old "" s H).
Qed.

End Strings.

(** ** The matcher *)

Section Regex.
Import PyStr Re.

Lemma match_seq_once (k : cclass) (r : list atom) (c : ascii) (s : string) :
  match_seq (Atom k Once :: r) (String c s)
  = if in_class k c then option_map (cons (String c "")) (match_seq r s) else None.
Proof. reflexivity. Qed.

Lemma match_seq_many (k : cclass) (q : quant) (r : list atom) (s : string) :
  q <> Once ->
  match_seq (Atom k q :: r) s
  = option_map (fun x => fst x :: snd x)
      (repeat_class (match q with StarLazy => false | _ => true end)
         (match q with Plus => 1 | _ => 0 end) k (match_seq r) s).
Proof. destruct q; [congruence | reflexivity ..]. Qed.

(** A pattern that begins with a class taken at least once does not match
    at a character outside the class. *)
Lemma match_seq_miss (k : cclass) (q : quant) (r : list atom) (c : ascii) (s : string) :
  q = Once \/ q = Plus -> in_class k c = false ->
  match_seq (Atom k q :: r) (String c s) = None.
Proof.
  intros [-> | ->] H; simpl; rewrite H; reflexivity.
Qed.

Lemma match_at_miss (re : regex) (k : cclass) (q : quant) (c : ascii) (s : string) :
  first_atom re = Some (Atom k q) -> q = Once \/ q = Plus -> in_class k c = false ->
  match_at re (String c s) = None.
Proof.
  unfold first_atom, match_at. intros Hf Hq Hc.
  destruct (r_before re ++ r_group re ++ r_after re)%list as [|a r]; [discriminate|].
  injection Hf as ->. rewrite (match_seq_miss k q r c s Hq Hc). reflexivity.
Qed.

(** [findall] passes over a prefix in which the pattern cannot begin. *)
Lemma findall_skip (re : regex) (k : cclass) (q : quant) (pre s : string) :
  first_atom re = Some (Atom k q) -> q = Once \/ q = Plus ->
  all_chars (fun c => negb (in_class k c)) pre = true ->
  findall re (pre ++ s) = findall re s.
Proof.
  intros Hf Hq. unfold findall. induction pre as [|c pre IH]; [reflexivity|].
  rewrite append_cons. simpl. intros [Hc Hpre]%andb_true_iff.
  apply negb_true_iff in Hc.
  rewrite (match_at_miss re k q c _ Hf Hq Hc). apply IH, Hpre.
Qed.

(** The first entry of [findall] is the match at the head when there is
    one. *)
Lemma findall_head (re : regex) (c : ascii) (s found : string) (n : nat) :
  match_at re (String c s) = Some (found, n) ->
  findall re (String c s) !! 0%nat = Some found.
Proof.
  intros H. unfold findall. cbn [findall_from]. rewrite H. reflexivity.
Qed.

(** A lazy [.*?] before a literal [x] takes the text up to the first [x]
    when the rest of the pattern matches from there. *)
Lemma lazy_dot_until (x : ascii) (r : list atom) (c tail : string) (v : list string) :
  lacks [x; newline] c = true ->
  match_seq (Atom (Chr x) Once :: r) (String x tail) = Some v ->
  match_seq (Atom Dot StarLazy :: Atom (Chr x) Once :: r) (c ++ String x tail)
  = Some (c :: v).
Proof.
  intros Hc Hv. rewrite match_seq_many by discriminate.
  enough (repeat_class false 0 Dot (match_seq (Atom (Chr x) Once :: r)) (c ++ String x tail)
          = Some (c, v)) as -> by reflexivity.
  induction c as [|d c IH].
  - rewrite append_nil_l. cbn [repeat_class]. rewrite Hv. reflexivity.
  - rewrite append_cons. unfold lacks in Hc. cbn [all_chars existsb] in Hc.
    apply andb_true_iff in Hc as [Hd Hc]. rewrite orb_false_r in Hd.
    apply negb_true_iff, orb_false_iff in Hd as [Hx Hn].
    cbn [repeat_class]. rewrite (match_seq_miss (Chr x) Once r d _ (or_introl eq_refl)).
    2:{ simpl. rewrite Ascii.eqb_sym. exact Hx. }
    cbn [option_map]. unfold in_class. rewrite Hn. cbn [negb Nat.pred].
    rewrite (IH Hc). reflexivity.
Qed.

(** A greedy run of digits takes all the digits before a text that does
    not go on with one. *)
Lemma greedy_digits {A : Type} (rest : string -> option A) (least : nat)
    (ds c : string) (v : A) :
  all_chars is_digit ds = true -> ends_number c = true ->
  (least <= String.length ds)%nat -> rest c = Some v ->
  repeat_class true least Digit rest (ds ++ c) = Some (ds, v).
Proof.
  intros Hds Hc Hl Hv. revert least Hl.
  induction ds as [|d ds IH]; intros least Hl.
  - rewrite append_nil_l. simpl in Hl. assert (least = 0%nat) as -> by lia.
    destruct c as [|x c]; cbn [repeat_class].
    + rewrite Hv. reflexivity.
    + simpl in Hc. apply negb_true_iff in Hc. cbn [in_class]. rewrite Hc, Hv. reflexivity.
  - rewrite append_cons. cbn [all_chars] in Hds. apply andb_true_iff in Hds as [Hd Hds].
    cbn [repeat_class in_class]. rewrite Hd, (IH Hds); [reflexivity|].
    simpl in Hl. lia.
Qed.

Lemma all_chars_ext (p q : ascii -> bool) (s : string) :
  (forall c, p c = q c) -> all_chars p s = all_chars q s.
Proof.
  intros H. induction s as [|c s IH]; [reflexivity|]. simpl. rewrite H, IH. reflexivity.
Qed.

Lemma lacks_outside (x : ascii) (s : string) :
  lacks [x] s = true -> all_chars (fun c => negb (in_class (Chr x) c)) s = true.
Proof.
  intros <-. apply all_chars_ext. intros c. simpl.
  rewrite orb_false_r, Ascii.eqb_sym. reflexivity.
Qed.

(** The matcher on some texts: a lazy group may be empty, a greedy [.+]
    runs to the last [**] of the line, and [.] stops at a newline. *)
Lemma findall_examples :
  findall Pat.bold "a **b** c **<:x:1> d** **e" = ["b"; "<:x:1> d"]
  /\ findall Pat.bold "*****" = [""]
  /\ findall Pat.amount_item "**3x A B** and **4x C** more**"
     = ["**3x A B** and **4x C** more**"]
  /\ findall Pat.catch "ab **cd* ef* gh" = ["**cd* ef*"]
  /\ findall Pat.tag "<a:coin:123> **Useless <x> Trash** <>" = ["a:coin:123"; "x"; ""]
  /\ findall Pat.bold "**a
** **b**" = [" "]
  /\ findall Pat.number "ab 12 345c6" = ["12"; "345"; "6"].
Proof. repeat split; vm_compute; reflexivity. Qed.

(** The first [<...>] span. *)
Lemma findall_tag_first (pre c post : string) :
  lacks ["<"%char] pre = true -> lacks [">"%char; newline] c = true ->
  findall Pat.tag (pre ++ "<" ++ c ++ ">" ++ post) !! 0%nat = Some c.
Proof.
  intros Hpre Hc.
  rewrite (findall_skip Pat.tag (Chr "<") Once pre _ eq_refl (or_introl eq_refl)
             (lacks_outside _ _ Hpre)).
  apply (findall_head Pat.tag "<" (c ++ ">" ++ post) c (S (S (String.length c)))).
  unfold match_at. cbn [Pat.tag r_before r_group r_after lit app].
  change (match_seq (Atom (Chr "<") Once :: ?r) (String "<" ?s))
    with (option_map (cons "<") (match_seq r s)).
  change (">" ++ post) with (String ">" post).
  rewrite (lazy_dot_until ">" [] c post [">"] Hc eq_refl).
  cbn [option_map length drop take concat foldr].
  rewrite !append_cons, !append_nil_l, append_nil_r. cbn [String.length].
  rewrite length_append. cbn [String.length]. do 2 f_equal. lia.
Qed.

(** The first run of digits. *)
Lemma findall_number_first (a ds c : string) :
  no_digit a = true ->
  is_number ds = true -> ends_number c = true ->
  findall Pat.number (a ++ ds ++ c) !! 0%nat = Some ds.
Proof.
  intros Ha [[Hne Hds]%andb_true_iff Hlen]%andb_true_iff Hc.
  rewrite (findall_skip Pat.number Digit Plus a _ eq_refl (or_intror eq_refl) Ha).
  destruct ds as [|d ds]; [discriminate|]. rewrite append_cons.
  apply (findall_head Pat.number d (ds ++ c) (String d ds) (S (String.length ds))).
  unfold match_at. cbn [Pat.number whole r_before r_group r_after app].
  rewrite match_seq_many by discriminate. rewrite <- append_cons.
  rewrite (greedy_digits (match_seq []) 1 (String d ds) c [] Hds Hc); [|simpl; lia|reflexivity].
  cbn [option_map fst snd length drop take concat foldr]. rewrite append_nil_r.
  reflexivity.
Qed.

End Regex.

(** ** Floats *)

Section Floats.
Import Float.

Lemma nearest_even_nonneg (n d : Z) : 0 <= n -> 0 < d -> 0 <= nearest_even n d.
Proof.
  intros Hn Hd. unfold nearest_even.
  pose proof (Z.div_pos n d Hn Hd).
  repeat case_match; lia.
Qed.

Lemma nearest_even_nonpos (n d : Z) : n <= 0 -> 0 < d -> nearest_even n d <= 0.
Proof.
  intros Hn Hd. unfold nearest_even.
  pose proof (Z.div_mod n d ltac:(lia)) as E.
  pose proof (Z.mod_pos_bound n d Hd) as B.
  destruct (2 * (n mod d) <? d) eqn:E1; [apply Z.ltb_lt in E1; nia|].
  apply Z.ltb_ge in E1.
  assert (n `div` d + 1 <= 0) by nia.
  repeat case_match; lia.
Qed.

(** The integer chosen is within one half of the quotient. *)
Lemma nearest_even_close (n d : Z) :
  0 < d -> Z.abs (2 * n - 2 * d * nearest_even n d) <= d.
Proof.
  intros Hd. unfold nearest_even.
  pose proof (Z.div_mod n d ltac:(lia)) as E.
  pose proof (Z.mod_pos_bound n d Hd) as B.
  destruct (2 * (n mod d) <? d) eqn:E1; [apply Z.ltb_lt in E1; lia|].
  apply Z.ltb_ge in E1.
  destruct (d <? 2 * (n mod d)) eqn:E2.
  - apply Z.ltb_lt in E2. lia.
  - apply Z.ltb_ge in E2. destruct (Z.even (n `div` d)); lia.
Qed.

(** At its exponent the quotient has 53 bits. *)
Lemma exponent_spec (a d : Z) :
  0 < a -> 0 < d ->
  2 ^ 52 * snd (scaled a d (exponent a d)) <= fst (scaled a d (exponent a d))
  /\ fst (scaled a d (exponent a d)) < 2 ^ 53 * snd (scaled a d (exponent a d)).
Proof.
  intros Ha Hd.
  destruct (Z.log2_spec a Ha) as [La Ua]. destruct (Z.log2_spec d Hd) as [Ld Ud].
  pose proof (Z.log2_nonneg a) as Na. pose proof (Z.log2_nonneg d) as Nd.
  unfold exponent. set (e0 := Z.log2 a - Z.log2 d - 53).
  rewrite Z.pow_succ_r in Ua, Ud by assumption.
  assert (Hla : Z.log2 a = e0 + 53 + Z.log2 d) by (unfold e0; lia).
  destruct (fst (scaled a d e0) <? 2 ^ 53 * snd (scaled a d e0)) eqn:T.
  - apply Z.ltb_lt in T. split; [|exact T]. clear T.
    unfold scaled. destruct (0 <=? e0) eqn:S; cbn [fst snd].
    + apply Z.leb_le in S. rewrite Hla in La.
      rewrite !Z.pow_add_r in La by lia.
      pose proof (Z.pow_pos_nonneg 2 e0 ltac:(lia) S). nia.
    + apply Z.leb_gt in S.
      assert (Z.log2 d + 53 = Z.log2 a + - e0) as E by lia.
      pose proof (Z.pow_add_r 2 (Z.log2 d) 53 ltac:(lia) ltac:(lia)) as P1.
      pose proof (Z.pow_add_r 2 (Z.log2 a) (- e0) ltac:(lia) ltac:(lia)) as P2.
      rewrite E in P1. rewrite P1 in P2.
      pose proof (Z.pow_pos_nonneg 2 (- e0) ltac:(lia) ltac:(lia)). nia.
  - apply Z.ltb_ge in T. unfold scaled in *.
    destruct (0 <=? e0) eqn:S; cbn [fst snd] in T.
    + apply Z.leb_le in S. assert ((0 <=? e0 + 1) = true) as -> by (apply Z.leb_le; lia).
      cbn [fst snd]. rewrite Z.pow_add_r by lia. change (2 ^ 1) with 2.
      split; [lia|].
      rewrite Hla in Ua. rewrite !Z.pow_add_r in Ua by lia.
      pose proof (Z.pow_pos_nonneg 2 e0 ltac:(lia) S). nia.
    + apply Z.leb_gt in S.
      assert (Z.opp e0 = Z.opp (e0 + 1) + 1) as E by lia.
      rewrite E, Z.pow_add_r in T by lia. change (2 ^ 1) with 2 in T.
      destruct (0 <=? e0 + 1) eqn:S1; cbn [fst snd].
      * apply Z.leb_le in S1. assert (e0 + 1 = 0) as E1 by lia.
        rewrite E1 in *. change (- 0) with 0 in T. change (2 ^ 0) with 1 in *.
        split; [lia|].
        assert (Z.log2 a = 52 + Z.log2 d) as E2 by lia.
        rewrite E2, Z.pow_add_r in Ua by lia. nia.
      * apply Z.leb_gt in S1. split; [lia|].
        assert (Z.log2 d + 53 = Z.log2 a + 1 + - (e0 + 1)) as E2 by lia.
        pose proof (Z.pow_add_r 2 (Z.log2 d) 53 ltac:(lia) ltac:(lia)) as P1.
        pose proof (Z.pow_add_r 2 (Z.log2 a + 1) (- (e0 + 1)) ltac:(lia) ltac:(lia)) as P2.
        rewrite <- E2, P1 in P2. rewrite Z.pow_add_r in P2 by lia. change (2 ^ 1) with 2 in P2.
        pose proof (Z.pow_pos_nonneg 2 (- (e0 + 1)) ltac:(lia) ltac:(lia)). nia.
Qed.

Lemma nearest_even_floor (n d : Z) :
  0 < d -> n / d <= nearest_even n d <= n / d + 1.
Proof. intros Hd. unfold nearest_even. repeat case_match; lia. Qed.

(** The mantissa has 53 bits and lies within one half of the scaled
    quotient: [mantissa * 2 ^ exponent] is a binary64 number nearest to
    [a / d]. *)
Lemma mantissa_spec (a d : Z) :
  0 < a -> 0 < d ->
  2 ^ 52 <= mantissa a d <= 2 ^ 53
  /\ Z.abs (2 * fst (scaled a d (exponent a d))
            - 2 * snd (scaled a d (exponent a d)) * mantissa a d)
     <= snd (scaled a d (exponent a d)).
Proof.
  intros Ha Hd. destruct (exponent_spec a d Ha Hd) as [Lo Hi].
  unfold mantissa.
  set (x := fst (scaled a d (exponent a d))) in *.
  set (y := snd (scaled a d (exponent a d))) in *.
  assert (0 < y) as Hy.
  { unfold y, scaled. destruct (0 <=? exponent a d) eqn:S; cbn [snd]; [|exact Hd].
    apply Z.leb_le in S. pose proof (Z.pow_pos_nonneg 2 (exponent a d) ltac:(lia) S). nia. }
  split; [|apply nearest_even_close, Hy].
  pose proof (nearest_even_floor x y Hy) as [F1 F2].
  assert (2 ^ 52 <= x / y) by (apply Z.div_le_lower_bound; lia).
  assert (x / y < 2 ^ 53) by (apply Z.div_lt_upper_bound; lia).
  lia.
Qed.

(** The floats of a half and of a whole hundredth of a second: [0.005]
    lies above the decimal it is written as, and rounds up. *)
Lemma half_hundredth :
  total_seconds 5000 = (5764607523034235 # 1152921504606846976)%Q
  /\ round2 (total_seconds 5000) = (5764607523034235 # 576460752303423488)%Q
  /\ round2 (total_seconds 125000) = (1080863910568919 # 9007199254740992)%Q.
Proof. repeat split; vm_compute; reflexivity. Qed.

Lemma pow2_nonneg (e : Z) : (0 <= pow2 e)%Q.
Proof.
  unfold pow2. destruct (0 <=? e).
  - change 0%Q with (inject_Z 0). rewrite <- Zle_Qle. apply Z.pow_nonneg. lia.
  - apply Qinv_le_0_compat. change 0%Q with (inject_Z 0). rewrite <- Zle_Qle.
    apply Z.pow_nonneg. lia.
Qed.

Lemma mantissa_nonneg (a d : Z) : 0 <= a -> 0 < d -> 0 <= mantissa a d.
Proof.
  intros Ha Hd. unfold mantissa, scaled.
  destruct (0 <=? exponent a d) eqn:Ee; simpl; apply nearest_even_nonneg.
  - exact Ha.
  - apply Z.leb_le in Ee. pose proof (Z.pow_pos_nonneg 2 (exponent a d)). nia.
  - apply Z.leb_gt in Ee. pose proof (Z.pow_pos_nonneg 2 (- exponent a d)). nia.
  - exact Hd.
Qed.

Lemma Qnum_nonneg (x : Q) : (0 <= x)%Q <-> 0 <= Qnum x.
Proof. unfold Qle. simpl. lia. Qed.

Lemma Qnum_nonpos (x : Q) : (x <= 0)%Q <-> Qnum x <= 0.
Proof. unfold Qle. simpl. lia. Qed.

Lemma of_ratio_sign (n d : Z) :
  0 < d ->
  (0 <= n -> (0 <= of_ratio n d)%Q) /\ (n <= 0 -> (of_ratio n d <= 0)%Q).
Proof.
  intros Hd. unfold of_ratio. destruct (n =? 0) eqn:E0.
  - split; intros _; apply Qle_refl.
  - apply Z.eqb_neq in E0. cbv zeta.
    pose proof (mantissa_nonneg (Z.abs n) d (Z.abs_nonneg n) Hd) as Hm.
    pose proof (proj1 (Qnum_nonneg _) (pow2_nonneg (exponent (Z.abs n) d))) as Hp.
    split; intros Hn; rewrite Qred_correct.
    + apply Qnum_nonneg. cbn [Qmult Qnum inject_Z]. rewrite (Z.sgn_pos n) by lia. nia.
    + apply Qnum_nonpos. cbn [Qmult Qnum inject_Z]. rewrite (Z.sgn_neg n) by lia. nia.
Qed.

Lemma round2_sign (x : Q) :
  ((0 <= x)%Q -> (0 <= round2 x)%Q) /\ ((x <= 0)%Q -> (round2 x <= 0)%Q).
Proof.
  unfold round2. split; intros H.
  - apply Qnum_nonneg in H. apply of_ratio_sign; [lia|].
    apply nearest_even_nonneg; lia.
  - apply Qnum_nonpos in H. apply of_ratio_sign; [lia|].
    apply nearest_even_nonpos; lia.
Qed.

(** Only zero is false, and [round(x, 2)] of a zero is [0.0]. *)
Lemma round2_falsy (x : Q) : truthy x = false -> round2 x = 0%Q.
Proof.
  unfold truthy, round2. intros H. apply negb_false_iff, Z.eqb_eq in H.
  rewrite H. reflexivity.
Qed.

End Floats.

(** ** Results of the extractors *)

Lemma bind_Ok {A B : Type} (m : res A) (f : A -> res B) (b : B) :
  m ≫= f = Ok b -> exists a, m = Ok a /\ f a = Ok b.
Proof. destruct m as [a|e]; [eauto | discriminate]. Qed.

(** A closed conjunction of equations is settled by evaluation. *)
Ltac evaluate :=
  cbv zeta; repeat match goal with |- _ /\ _ => split end; vm_compute; reflexivity.

Ltac bind_inv H :=
  repeat match type of H with
         | _ ≫= _ = Ok _ =>
             let a := fresh "a" in
             let E := fresh "E" in
             apply bind_Ok in H as (a & E & H)
         end.

(** The value of a text of digits, digit by digit. *)
Lemma decimal_snoc (s : string) (c : ascii) :
  decimal (s ++ String c "") = 10 * decimal s + PyStr.digit_value c.
Proof.
  unfold decimal. generalize 0. induction s as [|x s IH]; intros acc.
  - reflexivity.
  - rewrite append_cons. cbn [PyStr.digits_value]. apply IH.
Qed.

Lemma py_int_number (ds : string) : is_number ds = true -> py_int ds = Ok (decimal ds).
Proof.
  unfold is_number, py_int, PyStr.int, decimal.
  intros [[Hne Hds]%andb_true_iff Hlen]%andb_true_iff.
  destruct ds as [|d ds]; [discriminate|]. rewrite Hds, Hlen. reflexivity.
Qed.

Lemma is_some_attempt_getitem {A B : Type} (l : list A) (f : A -> B) :
  Parser.is_some (attempt (x ← getitem l 0; Ok (f x))) = Parser.is_some (l !! 0%nat).
Proof. destruct l; reflexivity. Qed.

(** A family extractor sets no cooldown. *)
Lemma run_cooldown (f : family) (description : string) (r : CommandResult) :
  run f description = Ok r -> cooldown r = None.
Proof.
  destruct f; cbn [run]; intros H.
  1-4: injection H as <-; unfold Parser.search;
    try destruct (Parser.search_item _); reflexivity.
  - unfold Parser.postmemes in H.
    destruct (PyStr.contains "**You Received" description).
    + bind_inv H. injection H as <-. reflexivity.
    + injection H as <-. reflexivity.
  - unfold Parser.buy in H. destruct (_ && _).
    + bind_inv H. injection H as <-. reflexivity.
    + injection H as <-. reflexivity.
  - unfold Parser.sell in H. destruct (_ && _).
    + bind_inv H. injection H as <-. reflexivity.
    + injection H as <-. reflexivity.
Qed.

(** The [success] of a family extractor is its primary signal. *)
Lemma run_success (f : family) (description : string) (r : CommandResult) :
  run f description = Ok r -> success r = signal f description.
Proof.
  destruct f; cbn [run signal]; intros H.
  - injection H as <-. unfold Parser.beg, Parser.beg_item. cbn [success CommandResult_init].
    destruct (attempt (Parser.coin_amount _)) as [n|]; [reflexivity|].
    cbn [Parser.truthy_int negb Parser.is_some orb].
    destruct (Re.findall Pat.bold _) as [|b l]; [reflexivity|].
    cbn [getitem lookup list_lookup]. destruct (Parser.tempstring b); reflexivity.
  - injection H as <-. unfold Parser.search.
    destruct (Parser.search_item _) as [item_amount item]. reflexivity.
  - injection H as <-. unfold Parser.common1. cbn [success CommandResult_init].
    apply is_some_attempt_getitem.
  - injection H as <-. unfold Parser.crime, Parser.crime_item. cbn [success CommandResult_init].
    destruct (attempt (Parser.coin_amount _)) as [n|]; [reflexivity|].
    cbn [Parser.truthy_int negb Parser.is_some orb].
    destruct (Re.findall Pat.bold _) as [|b l]; [reflexivity|].
    cbn [getitem lookup list_lookup]. destruct (Parser.tempstring b); reflexivity.
  - unfold Parser.postmemes in H.
    destruct (PyStr.contains "**You Received" description).
    + bind_inv H. injection H as <-. reflexivity.
    + injection H as <-. reflexivity.
  - unfold Parser.buy in H. destruct (_ && _).
    + bind_inv H. injection H as <-. reflexivity.
    + injection H as <-. reflexivity.
  - unfold Parser.sell in H. destruct (_ && _).
    + bind_inv H. injection H as <-. reflexivity.
    + injection H as <-. reflexivity.
Qed.

(** Without its primary signal [beg] finds neither coins nor an item. *)
Lemma beg_no_signal (description : string) :
  signal Beg description = false ->
  Parser.beg description
  = {| success := false; death := None; gain := Some ∅; loss := Some ∅;
       cooldown := None |}.
Proof.
  cbn [signal]. intros [Hc Hb]%orb_false_iff.
  unfold Parser.beg, Parser.beg_item.
  destruct (attempt (Parser.coin_amount _)) as [n|]; [discriminate|].
  cbn [Parser.truthy_int negb].
  destruct (Re.findall Pat.bold _) as [|b l]; [reflexivity | discriminate].
Qed.

Lemma crime_no_signal (description : string) :
  signal Crime description = false ->
  Parser.crime description
  = {| success := false; death := None; gain := Some ∅; loss := Some ∅;
       cooldown := None |}.
Proof.
  cbn [signal]. intros [Hc Hb]%orb_false_iff.
  unfold Parser.crime, Parser.crime_item.
  destruct (attempt (Parser.coin_amount _)) as [n|]; [discriminate|].
  cbn [Parser.truthy_int negb].
  destruct (Re.findall Pat.bold _) as [|b l]; [reflexivity | discriminate].
Qed.

Lemma common1_no_signal (description : string) :
  signal Common1 description = false ->
  Parser.common1 description
  = {| success := false; death := None; gain := Some ∅; loss := Some ∅;
       cooldown := None |}.
Proof.
  cbn [signal]. intros Hs. unfold Parser.common1.
  destruct (Re.findall Pat.catch _) as [|b l]; [reflexivity | discriminate].
Qed.

(** Without a coin amount [search] reports a failure that may still carry
    an item. *)
Lemma search_no_signal (description : string) :
  signal Search description = false ->
  success (Parser.search description) = false
  /\ death (Parser.search description) = None
  /\ cooldown (Parser.search description) = None
  /\ loss (Parser.search description) = Some ∅
  /\ exists g : pydict,
       gain (Parser.search description) = Some g /\ g !! kstr "coins" = None.
Proof.
  cbn [signal]. intros Hs. unfold Parser.search.
  destruct (Parser.search_item _) as [item_amount item].
  destruct (attempt (Parser.coin_amount _)) as [n|]; [discriminate|].
  repeat split; try reflexivity. eexists. split; [reflexivity|].
  cbn [Parser.put_coins]. destruct item_amount as [n|]; [|reflexivity].
  destruct (Parser.truthy_int (Some n)); [|reflexivity].
  rewrite lookup_insert_ne by discriminate. reflexivity.
Qed.

(** What [gain] records for the item [item]. *)
Lemma recorded_put_item (s : bool) (coins : option Z) (item : option string) :
  recorded_item
    (CommandResult_init s None (Some (Parser.put_item item (Parser.put_coins coins ∅)))
       default_dict None)
  = if Parser.truthy_str item then item else None.
Proof.
  unfold recorded_item, Parser.put_item. cbn [gain CommandResult_init].
  destruct (Parser.truthy_str item) eqn:E.
  - rewrite lookup_insert_eq. destruct item; [reflexivity | discriminate].
  - unfold Parser.put_coins. destruct coins as [n|]; [|reflexivity].
    destruct (Parser.truthy_int (Some n)); [|reflexivity].
    rewrite lookup_insert_ne by discriminate. reflexivity.
Qed.

(** A text without [<] has no [<...>] span. *)
Lemma findall_tag_none (s : string) :
  lacks ["<"%char] s = true -> Re.findall Pat.tag s = [].
Proof.
  intros H. rewrite <- (append_nil_r s).
  apply (findall_skip Pat.tag (Re.Chr "<") Re.Once s "" eq_refl (or_introl eq_refl)
           (lacks_outside _ _ H)).
Qed.

(** A tag with its space before a name without [<] is removed whole. *)
Lemma stripped_tagged (t name : string) :
  lacks [">"%char; Re.newline] t = true -> lacks ["<"%char] name = true ->
  stripped ("<" ++ t ++ "> " ++ name) = name.
Proof.
  intros Ht Hn. unfold stripped.
  pose proof (findall_tag_first "" t (" " ++ name) eq_refl Ht) as E.
  rewrite append_nil_l in E.
  change ("<" ++ t ++ ">" ++ " " ++ name) with ("<" ++ t ++ "> " ++ name) in E.
  destruct (Re.findall Pat.tag ("<" ++ t ++ "> " ++ name)) as [|t' l]; [discriminate|].
  injection E as ->.
  replace ("<" ++ t ++ "> " ++ name) with (("<" ++ t ++ "> ") ++ name).
  - apply (replace_head "<" (t ++ "> ") name Hn).
  - change ("<" ++ ?x) with (String "<" x). rewrite append_cons, append_assoc. reflexivity.
Qed.

(** The item of [crime] is the stripped span. *)
Lemma crime_item_stripped (coins : option Z) (temp_desc span : string) :
  Re.findall Pat.bold temp_desc !! (if Parser.truthy_int coins then 1%nat else 0%nat)
  = Some span ->
  Parser.crime_item coins temp_desc = Some (stripped span).
Proof.
  intros Hspan. unfold Parser.crime_item, getitem, Parser.tempstring, getitem, stripped.
  destruct (Parser.truthy_int coins); cbn [negb]; rewrite Hspan;
    destruct (Re.findall Pat.tag span); reflexivity.
Qed.

(** So is the item of [beg] when coins were found. *)
Lemma beg_item_stripped (coins : option Z) (temp_desc span : string) :
  Parser.truthy_int coins = true ->
  Re.findall Pat.bold temp_desc !! 1%nat = Some span ->
  Parser.beg_item coins temp_desc = Some (stripped span).
Proof.
  intros Ht Hspan. unfold Parser.beg_item, getitem, Parser.tempstring, getitem, stripped.
  rewrite Ht. cbn [negb]. rewrite Hspan.
  destruct (Re.findall Pat.tag span); reflexivity.
Qed.

(** Without coins [beg] leaves the tag in the name: the statement that
    would remove it reads a variable that was never assigned. *)
Lemma beg_keeps_tag :
  gain (Parser.beg "**<:trash:99> Useless Trash**")
  = Some {[kstr "items" := VItems [(1, Some "<:trash:99> Useless Trash")]]}
  /\ gain (Parser.crime "**<:trash:99> Useless Trash**")
     = Some {[kstr "items" := VItems [(1, Some "Useless Trash")]]}.
Proof. evaluate. Qed.

(** ** The cooldown value *)

(** The rounding of [__init__] applies to every cooldown: the value it
    skips is zero, which rounds to itself. *)
Lemma init_cooldown (s : bool) (d : option bool) (g l : option pydict) (x : Q) :
  Qred x = x ->
  cooldown (CommandResult_init s d g l (Some x)) = Some (Float.round2 x).
Proof.
  intros Hx. cbn [cooldown CommandResult_init].
  destruct (Float.truthy x) eqn:E; [reflexivity|].
  rewrite (round2_falsy x E). f_equal.
  unfold Float.truthy in E. apply negb_false_iff, Z.eqb_eq in E.
  destruct x as [p q]. simpl in E. subst p. rewrite <- Hx. reflexivity.
Qed.

Lemma of_ratio_reduced (n d : Z) : Qred (Float.of_ratio n d) = Float.of_ratio n d.
Proof.
  unfold Float.of_ratio. destruct (n =? 0); [reflexivity|]. cbv zeta.
  apply Qred_complete, Qred_correct.
Qed.


(** On a tie the even integer is chosen. *)
Lemma nearest_even_tie (n d : Z) :
  0 < d -> Z.abs (2 * n - 2 * d * Float.nearest_even n d) = d ->
  Z.even (Float.nearest_even n d) = true.
Proof.
  intros Hd. unfold Float.nearest_even.
  pose proof (Z.div_mod n d ltac:(lia)) as E.
  pose proof (Z.mod_pos_bound n d Hd) as B.
  destruct (2 * (n mod d) <? d) eqn:E1; [apply Z.ltb_lt in E1; lia|].
  apply Z.ltb_ge in E1.
  destruct (d <? 2 * (n mod d)) eqn:E2; [apply Z.ltb_lt in E2; lia|].
  intros _. destruct (Z.even (n `div` d)) eqn:E3; [exact E3|].
  rewrite Z.even_add, E3. reflexivity.
Qed.

(** [round(x, 2)] takes the two-place decimal nearest to [x], the even
    one on a tie. *)
Lemma round2_half_even (x : Q) :
  let c := Float.nearest_even (100 * Qnum x) (Z.pos (Qden x)) in
  Float.round2 x = Float.of_ratio c 100
  /\ (Qabs (100 * x - inject_Z c) <= 1 # 2)%Q
  /\ ((Qabs (100 * x - inject_Z c) == 1 # 2)%Q -> Z.even c = true).
Proof.
  intros c. split; [reflexivity|].
  pose proof (nearest_even_close (100 * Qnum x) (Z.pos (Qden x)) ltac:(lia)) as H.
  pose proof (nearest_even_tie (100 * Qnum x) (Z.pos (Qden x)) ltac:(lia)) as T.
  fold c in H, T. destruct x as [p q]. cbn [Qnum Qden] in *.
  split.
  - unfold Qle, Qminus, Qplus, Qmult, Qopp, inject_Z, Qabs. cbn [Qnum Qden].
    rewrite !Pos.mul_1_r, !Pos.mul_1_l. lia.
  - intros E. apply T. revert E.
    unfold Qeq, Qminus, Qplus, Qmult, Qopp, inject_Z, Qabs. cbn [Qnum Qden].
    rewrite !Pos.mul_1_r, !Pos.mul_1_l. lia.
Qed.

(** With the same offset at both instants the difference of the local
    readings is the time between them. *)
Lemma local_difference (k : clock) (t : Z) :
  utc_offset k t = utc_offset k (now k / 1000000) ->
  local k (t * 1000000) - datetime_now k = t * 1000000 - now k.
Proof.
  intros H. unfold datetime_now, local. rewrite Z.div_mul by lia. rewrite H. ring.
Qed.

(** ** The cache *)

Lemma remove_first_absent (x : string) (l : list string) :
  x ∉ l -> Cache.remove_first x l = l.
Proof.
  induction l as [|y l IH]; [reflexivity|].
  intros [Hne Hl]%not_elem_of_cons. simpl.
  destruct (String.eqb y x) eqn:E.
  - apply String.eqb_eq in E. congruence.
  - rewrite (IH Hl). reflexivity.
Qed.

(** * The claims *)

(** C1.  On the text [You went out to beg and got **⏣ 150**!] the
    extractor [beg] returns a result with [success = True] and the gain
    [{"coins": 150}]. *)
Theorem beg_coins_literal :
  Parser.beg "You went out to beg and got **⏣ 150**!"
  = {| success := true; death := None;
       gain := Some {[kstr "coins" := VInt 150]}; loss := Some ∅;
       cooldown := None |}.
Proof. vm_compute. reflexivity. Qed.

(** C2 as stated fails: the name that [crime] records may hold a raw
    emoji tag.  Only the first tag of the bold span is removed, so a
    second one stays in the name. *)
Lemma crime_keeps_second_tag :
  gain (Parser.crime "**<:a:1> <:b:2> Trash**")
  = Some {[kstr "items" := VItems [(1, Some "<:b:2> Trash")]]}
  /\ Re.findall Pat.tag "<:b:2> Trash" = [":b:2"].
Proof. evaluate. Qed.

(** C2, amended.  Let [span] be the bold span from which the item is
    taken.  [crime], and [beg] when it found a coin amount, record
    [stripped span] as the item name (nothing when that is empty): the
    span without the occurrences of ["<" + t + "> "], [t] being the first
    [<...>] span inside it.  A span without a [<...>] span is recorded as
    it is, and a span ["<t> name"] whose [name] has no [<] is recorded as
    [name], in which no tag is left.  On [<a:coin:123> **Useless Trash**]
    [crime] returns the gain [{"items": [{1: "Useless Trash"}]}]. *)
Theorem item_tag_stripped (description span : string) :
  item_span description = Some span ->
  let coins := attempt (Parser.coin_amount (Parser.strip_commas description)) in
  let name := stripped span in
  let recorded := if String.eqb name "" then None else Some name in
  recorded_item (Parser.crime description) = recorded
  /\ (Parser.truthy_int coins = true ->
      recorded_item (Parser.beg description) = recorded)
  /\ (Re.findall Pat.tag span = [] -> name = span)
  /\ (forall t item : string,
      span = "<" ++ t ++ "> " ++ item ->
      lacks [">"%char; Re.newline] t = true -> lacks ["<"%char] item = true ->
      name = item /\ Re.findall Pat.tag item = [])
  /\ gain (Parser.crime "<a:coin:123> **Useless Trash**")
     = Some {[kstr "items" := VItems [(1, Some "Useless Trash")]]}.
Proof.
  intros Hspan coins name recorded. unfold item_span in Hspan. fold coins in Hspan.
  split; [|split; [|split; [|split]]].
  - unfold Parser.crime. rewrite recorded_put_item. fold coins.
    rewrite (crime_item_stripped coins _ span Hspan).
    unfold recorded, name. cbn [Parser.truthy_str].
    destruct (String.eqb (stripped span) ""); reflexivity.
  - intros Ht. unfold Parser.beg. rewrite recorded_put_item. fold coins.
    rewrite Ht in Hspan. rewrite (beg_item_stripped coins _ span Ht Hspan).
    unfold recorded, name. cbn [Parser.truthy_str].
    destruct (String.eqb (stripped span) ""); reflexivity.
  - unfold name, stripped. intros ->. reflexivity.
  - intros t item -> Ht Hi. split.
    + apply stripped_tagged; assumption.
    + apply findall_tag_none, Hi.
  - vm_compute. reflexivity.
Qed.

Lemma item_tag_stripped_witness :
  recorded_item (Parser.crime "You stole **<:trash:99> Useless Trash**!")
  = Some "Useless Trash".
Proof.
  destruct (item_tag_stripped "You stole **<:trash:99> Useless Trash**!"
              "<:trash:99> Useless Trash" eq_refl) as (Hc & _ & _ & Hn & _).
  destruct (Hn ":trash:99" "Useless Trash" eq_refl eq_refl eq_refl) as [Hname _].
  rewrite Hc, Hname. reflexivity.
Defined.

(** C3 as stated fails in both directions on texts that are no cooldown
    notice: [beg] reports a success with nothing gained when the bold span
    it found is empty, and [search] reports a failure together with the
    item it found when the text has no coin amount. *)
Lemma success_apart_from_outcome :
  (Parser.check_cooldown "****" = false
   /\ success (Parser.beg "****") = true
   /\ gain (Parser.beg "****") = Some ∅ /\ loss (Parser.beg "****") = Some ∅)
  /\ (Parser.check_cooldown "**3x A B**" = false
      /\ success (Parser.search "**3x A B**") = false
      /\ gain (Parser.search "**3x A B**")
         = Some {[kstr "items" := VItems [(3, Some "B")]]}).
Proof. evaluate. Qed.

(** C3, amended.  When a family extractor returns [r] on a text,
    [success r] tells whether the primary signal of the family was found.
    For every family but [search], [success = False] comes with a gain
    and a loss that hold nothing, so that an extracted gain or loss
    implies [success = True]; for [buy] and [sell], [success = True] comes
    with a gain and a loss that are not empty. *)
Theorem success_is_signal (f : family) (description : string) (r : CommandResult) :
  run f description = Ok r ->
  success r = signal f description
  /\ (f <> Search -> success r = false ->
      holds_nothing (gain r) /\ holds_nothing (loss r))
  /\ (is_trade f = true -> success r = true ->
      exists g l : pydict,
        gain r = Some g /\ loss r = Some l /\ g <> ∅ /\ l <> ∅).
Proof.
  intros H. pose proof (run_success f description r H) as E.
  split; [exact E|]. split.
  - intros Hf Hs. rewrite Hs in E. symmetry in E.
    destruct f; cbn [run] in H; try congruence.
    + injection H as <-. rewrite (beg_no_signal _ E). split; right; reflexivity.
    + injection H as <-. rewrite (common1_no_signal _ E). split; right; reflexivity.
    + injection H as <-. rewrite (crime_no_signal _ E). split; right; reflexivity.
    + cbn [signal] in E. unfold Parser.postmemes in H. rewrite E in H.
      injection H as <-. split; right; reflexivity.
    + cbn [signal] in E. unfold Parser.buy in H. rewrite E in H.
      injection H as <-. split; left; reflexivity.
    + cbn [signal] in E. unfold Parser.sell in H. rewrite E in H.
      injection H as <-. split; left; reflexivity.
  - intros Ht Hs. destruct f; try discriminate; cbn [run] in H.
    + unfold Parser.buy in H. destruct (_ && _).
      * bind_inv H. injection H as <-. do 2 eexists.
        repeat split; apply insert_non_empty.
      * injection H as <-. discriminate.
    + unfold Parser.sell in H. destruct (_ && _).
      * bind_inv H. injection H as <-. do 2 eexists.
        repeat split; apply insert_non_empty.
      * injection H as <-. discriminate.
Qed.

Lemma success_is_signal_witness :
  success (Parser.beg "Go away") = signal Beg "Go away"
  /\ holds_nothing (gain (Parser.beg "Go away"))
  /\ holds_nothing (loss (Parser.beg "Go away")).
Proof.
  destruct (success_is_signal Beg "Go away" (Parser.beg "Go away") eq_refl)
    as (Hs & Hn & _).
  split; [exact Hs|]. apply Hn; [discriminate | vm_compute; reflexivity].
Defined.

(** C4 as stated fails: without their confirmation phrases [buy] and
    [sell] return [None] for gain and loss, not empty mappings, and
    [search] without a coin amount returns the item it found. *)
Lemma no_signal_not_empty :
  (signal (Buy "apple" 1) "hello" = false
   /\ run (Buy "apple" 1) "hello"
      = Ok {| success := false; death := None; gain := None; loss := None;
              cooldown := None |})
  /\ (signal Search "**3x A B**" = false
      /\ run Search "**3x A B**"
         = Ok {| success := false; death := None;
                 gain := Some {[kstr "items" := VItems [(3, Some "B")]]};
                 loss := Some ∅; cooldown := None |}).
Proof. evaluate. Qed.

(** C4, amended.  On a text without the primary signal of its family an
    extractor raises nothing and returns a result with [success = False]:
    with an empty gain and an empty loss for [beg], [crime], [common1] and
    [postmemes]; with [None] for both from [buy] and [sell]; from [search]
    with an empty loss and a gain without coins. *)
Theorem no_signal_no_raise (f : family) (description : string) :
  signal f description = false ->
  exists r : CommandResult,
    run f description = Ok r /\ success r = false /\ death r = None
    /\ cooldown r = None
    /\ match f with
       | Buy _ _ | Sell _ _ => gain r = None /\ loss r = None
       | Search =>
           loss r = Some ∅
           /\ exists g : pydict, gain r = Some g /\ g !! kstr "coins" = None
       | _ => gain r = Some ∅ /\ loss r = Some ∅
       end.
Proof.
  intros Hs. destruct f; cbn [run].
  - rewrite (beg_no_signal _ Hs). eexists. repeat split; reflexivity.
  - destruct (search_no_signal _ Hs) as (H1 & H2 & H3 & H4 & H5). eauto 10.
  - rewrite (common1_no_signal _ Hs). eexists. repeat split; reflexivity.
  - rewrite (crime_no_signal _ Hs). eexists. repeat split; reflexivity.
  - cbn [signal] in Hs. unfold Parser.postmemes. rewrite Hs.
    eexists. repeat split; reflexivity.
  - cbn [signal] in Hs. unfold Parser.buy. rewrite Hs.
    eexists. repeat split; reflexivity.
  - cbn [signal] in Hs. unfold Parser.sell. rewrite Hs.
    eexists. repeat split; reflexivity.
Qed.

Lemma no_signal_no_raise_witness :
  exists r : CommandResult,
    run Crime "You were caught" = Ok r /\ success r = false /\ death r = None
    /\ cooldown r = None /\ gain r = Some ∅ /\ loss r = Some ∅.
Proof.
  apply (no_signal_no_raise Crime "You were caught"). vm_compute. reflexivity.
Defined.

(** With the confirmation phrases and no price [buy] raises. *)
Lemma buy_raises_without_price :
  signal (Buy "apple" 1) "bought and paid" = true
  /\ Parser.buy "bought and paid" "apple" 1 = Raise IndexError.
Proof. evaluate. Qed.

(** C5.  A result of the parsing engine whose cooldown is set has
    [success = False], an empty gain and an empty loss. *)
Theorem cooldown_carries_no_outcome (r : CommandResult) :
  produced r -> cooldown r <> None ->
  success r = false /\ gain r = Some ∅ /\ loss r = Some ∅.
Proof.
  intros [f description H | k description H] Hc.
  - rewrite (run_cooldown f description r H) in Hc. congruence.
  - unfold Parser.cooldown in H. bind_inv H. injection H as <-. auto.
Qed.

Lemma cooldown_carries_no_outcome_witness :
  let r := {| success := false; death := None; gain := Some ∅; loss := Some ∅;
              cooldown := Some 10%Q |} in
  success r = false /\ gain r = Some ∅ /\ loss r = Some ∅.
Proof.
  intros r. apply (cooldown_carries_no_outcome r).
  - apply (produced_by_cooldown r (Clock 1699999990000000 (fun _ => 0) 253402300799)
             "... cooldown is <t:1700000000:R> seconds ...").
    vm_compute. reflexivity.
  - discriminate.
Defined.

(** C6 as stated fails: the cooldown is not always the time from [now] to
    the tagged timestamp.  [cooldown] subtracts two local wall-clock
    readings, and here local time is set back one hour between [now] and
    the timestamp, 19.02 seconds later: the cooldown is -3580.98. *)
Lemma cooldown_offset_change :
  let k := Clock 1698541190980000 (fun t => if t <? 1698541200 then 7200 else 3600)
             253402300799 in
  Parser.cooldown k "... cooldown is <t:1698541210:R> seconds ..."
  = Ok {| success := false; death := None; gain := Some ∅; loss := Some ∅;
          cooldown := Some (Float.of_ratio (-358098) 100) |}
  /\ Float.round2 (total_seconds (1698541210 * 1000000 - now k)) = Float.of_ratio 1902 100
  /\ (Float.of_ratio (-358098) 100 < 0)%Q /\ (0 < Float.of_ratio 1902 100)%Q.
Proof. evaluate. Qed.

(** C6, amended.  [cooldown] reads the first run of digits of the first
    [<...>] span of the text as a unix timestamp and returns a result with
    [success = False] whose cooldown is the time from [datetime.now()] to
    [datetime.fromtimestamp] of that timestamp, two local wall-clock
    readings, in seconds as a float and rounded to two decimal places: the
    float of the decimal [c / 100] nearest to it, the even [c] on a tie.
    With the same offset of local time at [now] and at the timestamp that
    time is the time from [now] to the timestamp.  The text is taken with
    a first span [a ++ ds ++ b] in ASCII, [ds] being its first run of
    digits and a timestamp that [fromtimestamp] accepts.  With the span
    [t:1700000000:R] and [now] at 1699999990 the cooldown is 10.0, and
    9.88 with [now] at 1699999990.123456. *)
Theorem cooldown_time_tag (k : clock) (pre a ds b post : string) :
  lacks ["<"%char] pre = true ->
  lacks [">"%char; Re.newline] (a ++ ds ++ b) = true ->
  ascii_only (a ++ ds ++ b) = true ->
  no_digit a = true -> is_number ds = true -> ends_number b = true ->
  decimal ds <= max_timestamp k ->
  let elapsed := total_seconds (local k (decimal ds * 1000000) - datetime_now k) in
  let c := Float.nearest_even (100 * Qnum elapsed) (Z.pos (Qden elapsed)) in
  Parser.cooldown k (pre ++ "<" ++ (a ++ ds ++ b) ++ ">" ++ post)
  = Ok {| success := false; death := None; gain := Some ∅; loss := Some ∅;
          cooldown := Some (Float.of_ratio c 100) |}
  /\ (Qabs (100 * elapsed - inject_Z c) <= 1 # 2)%Q
  /\ ((Qabs (100 * elapsed - inject_Z c) == 1 # 2)%Q -> Z.even c = true)
  /\ (utc_offset k (decimal ds) = utc_offset k (now k / 1000000) ->
      elapsed = total_seconds (decimal ds * 1000000 - now k)).
Proof.
  intros Hpre Hspan _ Ha Hds Hb Hmax elapsed c.
  destruct (round2_half_even elapsed) as (Hr & Hc & Ht). fold c in Hr, Hc, Ht.
  split; [|split; [exact Hc|split; [exact Ht|]]].
  - unfold Parser.cooldown, Parser.tagged_time, getitem.
    rewrite (findall_tag_first pre (a ++ ds ++ b) post Hpre Hspan). cbn [mbind res_bind].
    change Pat.timestamp with Pat.number.
    rewrite (findall_number_first a ds b Ha Hds Hb). cbn [mbind res_bind].
    rewrite (py_int_number ds Hds). cbn [mbind res_bind].
    unfold fromtimestamp. apply Z.leb_le in Hmax. rewrite Hmax. cbn [mbind res_bind].
    f_equal. fold elapsed.
    pose proof (init_cooldown false None (Some ∅) default_dict elapsed
                  (of_ratio_reduced _ _)) as E.
    unfold CommandResult_init in *. cbn [cooldown] in E. rewrite E, Hr. reflexivity.
  - intros Hoff. unfold elapsed. rewrite (local_difference k (decimal ds) Hoff). reflexivity.
Qed.

Lemma cooldown_time_tag_witness :
  Parser.cooldown (Clock 1699999990000000 (fun _ => 3600) 253402300799)
    "... cooldown is <t:1700000000:R> seconds ..."
  = Ok {| success := false; death := None; gain := Some ∅; loss := Some ∅;
          cooldown := Some 10%Q |}
  /\ Parser.cooldown (Clock 1699999990123456 (fun _ => 3600) 253402300799)
       "... cooldown is <t:1700000000:R> seconds ..."
     = Ok {| success := false; death := None; gain := Some ∅; loss := Some ∅;
             cooldown := Some (Float.of_ratio 988 100) |}.
Proof.
  split.
  - refine (proj1 (cooldown_time_tag (Clock 1699999990000000 (fun _ => 3600) 253402300799)
           "... cooldown is " "t:" "1700000000" ":R" " seconds ..." _ _ _ _ _ _ _));
    vm_compute; first [reflexivity | discriminate].
  - refine (proj1 (cooldown_time_tag (Clock 1699999990123456 (fun _ => 3600) 253402300799)
           "... cooldown is " "t:" "1700000000" ":R" " seconds ..." _ _ _ _ _ _ _));
    vm_compute; first [reflexivity | discriminate].
Defined.

(** C7 as stated fails: a tag that lies in the past gives a negative
    cooldown. *)
Lemma cooldown_negative :
  Parser.cooldown (Clock 200000000 (fun _ => 0) 253402300799) "<t:100:R>"
  = Ok {| success := false; death := None; gain := Some ∅; loss := Some ∅;
          cooldown := Some (-100)%Q |}
  /\ (-100 < 0)%Q.
Proof. evaluate. Qed.

(** C7, amended.  When [cooldown] returns a result, its cooldown is set
    to the rounded time from [datetime.now()] to the [datetime] of the
    tagged timestamp [t].  It is not negative when that [datetime] is not
    before [datetime.now()], which is the case when [t] is not before
    [now] and local time has the same offset at both; it is not positive
    when that [datetime] is not after [datetime.now()]. *)
Theorem cooldown_sign (k : clock) (description : string) (r : CommandResult) :
  Parser.cooldown k description = Ok r ->
  exists (t : Z) (v : Q),
    Parser.tagged_time description = Ok t
    /\ cooldown r = Some v
    /\ v = Float.round2 (total_seconds (local k (t * 1000000) - datetime_now k))
    /\ (datetime_now k <= local k (t * 1000000) -> (0 <= v)%Q)
    /\ (utc_offset k t = utc_offset k (now k / 1000000) -> now k <= t * 1000000 ->
        (0 <= v)%Q)
    /\ (local k (t * 1000000) <= datetime_now k -> (v <= 0)%Q).
Proof.
  unfold Parser.cooldown. intros H. bind_inv H.
  unfold fromtimestamp in E0. destruct (a <=? max_timestamp k); [|discriminate].
  injection E0 as <-. injection H as <-.
  exists a, (Float.round2 (total_seconds (local k (a * 1000000) - datetime_now k))).
  split; [exact E|]. split; [apply init_cooldown, of_ratio_reduced|].
  split; [reflexivity|].
  split; [|split].
  - intros Hle. apply round2_sign, of_ratio_sign; lia.
  - intros Hoff Hle. rewrite (local_difference k a Hoff).
    apply round2_sign, of_ratio_sign; lia.
  - intros Hle. apply round2_sign, of_ratio_sign; lia.
Qed.

Lemma cooldown_sign_witness :
  let k := Clock 1699999990000000 (fun _ => 3600) 253402300799 in
  exists (t : Z) (v : Q),
    Parser.tagged_time "Your cooldown is <t:1700000000:R>" = Ok t
    /\ cooldown {| success := false; death := None; gain := Some ∅; loss := Some ∅;
                   cooldown := Some 10%Q |} = Some v
    /\ v = Float.round2 (total_seconds (local k (t * 1000000) - datetime_now k))
    /\ (datetime_now k <= local k (t * 1000000) -> (0 <= v)%Q)
    /\ (utc_offset k t = utc_offset k (now k / 1000000) -> now k <= t * 1000000 ->
        (0 <= v)%Q)
    /\ (local k (t * 1000000) <= datetime_now k -> (v <= 0)%Q).
Proof.
  intros k. apply (cooldown_sign k "Your cooldown is <t:1700000000:R>").
  vm_compute. reflexivity.
Defined.

(** C8 as stated fails: [postmemes] looks for the text [**You Received],
    which a reply can hold without holding the marker
    [**You Received:**]. *)
Lemma postmemes_short_marker :
  let description := "a
b
c
**You Received ⏣ 5" in
  PyStr.contains "**You Received:**" description = false
  /\ Parser.postmemes description
     = Ok {| success := true; death := None;
             gain := Some {[kstr "coins" := VInt 5]}; loss := Some ∅;
             cooldown := None |}.
Proof. evaluate. Qed.

(** C8, amended.  On a reply text that does not contain [**You Received]
    (such a text does not contain the marker [**You Received:**] either)
    [postmemes] returns a result with [success = False] and an empty
    gain. *)
Theorem postmemes_without_marker (description : string) :
  PyStr.contains "**You Received" description = false ->
  PyStr.contains "**You Received:**" description = false
  /\ Parser.postmemes description
     = Ok {| success := false; death := None; gain := Some ∅; loss := Some ∅;
             cooldown := None |}.
Proof.
  intros H. split.
  - destruct (PyStr.contains "**You Received:**" description) eqn:E; [|reflexivity].
    rewrite <- H. symmetry.
    apply (contains_app_l "**You Received" ":**" description E).
  - unfold Parser.postmemes. rewrite H. reflexivity.
Qed.

Lemma postmemes_without_marker_witness :
  PyStr.contains "**You Received:**" "You posted a dead meme" = false
  /\ Parser.postmemes "You posted a dead meme"
     = Ok {| success := false; death := None; gain := Some ∅; loss := Some ∅;
             cooldown := None |}.
Proof. apply postmemes_without_marker. vm_compute. reflexivity. Defined.

(** C9 as stated fails: [clear] empties the list of raw updates also for
    a token that is in no collection. *)
Lemma clear_flushes_updates :
  let c : Cache.t Z Z := Cache.mk ∅ [] [] [7] ∅ ∅ in
  Cache.nonce_message_map c !! "n" = None
  /\ ("n" ∉ Cache.interaction_create c)
  /\ ("n" ∉ Cache.interaction_success c)
  /\ Cache.message_create c !! "n" = None
  /\ Cache.raw_message_updates c = [7]
  /\ Cache.raw_message_updates (Cache.clear "n" c) = []
  /\ Cache.clear "n" c <> c.
Proof.
  cbv zeta. repeat split; try reflexivity; try apply not_elem_of_nil. discriminate.
Qed.

(** C9, amended.  For a token that is in none of the collections of the
    cache, [clear] leaves the four collections and the stored updates as
    they are and empties the list of raw updates; it changes nothing
    exactly when that list is empty already. *)
Theorem clear_absent {Id Payload : Type} `{Countable Id}
    (nonce : string) (c : Cache.t Id Payload) :
  Cache.nonce_message_map c !! nonce = None ->
  nonce ∉ Cache.interaction_create c ->
  nonce ∉ Cache.interaction_success c ->
  Cache.message_create c !! nonce = None ->
  Cache.clear nonce c
  = Cache.mk (Cache.nonce_message_map c) (Cache.interaction_create c)
      (Cache.interaction_success c) [] (Cache.message_create c)
      (Cache.message_updates c)
  /\ (Cache.clear nonce c = c <-> Cache.raw_message_updates c = []).
Proof.
  intros Hm Hc Hs Hn.
  assert (Cache.clear nonce c
          = Cache.mk (Cache.nonce_message_map c) (Cache.interaction_create c)
              (Cache.interaction_success c) [] (Cache.message_create c)
              (Cache.message_updates c)) as E.
  { unfold Cache.clear. rewrite Hm, (remove_first_absent _ _ Hc),
      (remove_first_absent _ _ Hs), (delete_id _ _ Hn). reflexivity. }
  split; [exact E|]. rewrite E. split.
  - intros Hr. rewrite <- Hr. reflexivity.
  - intros Hr. destruct c; simpl in *. rewrite Hr. reflexivity.
Qed.

Lemma clear_absent_witness :
  let c : Cache.t Z Z :=
    Cache.mk {["a" := 1]} ["b"] ["b"] [7; 8] {["a" := 5]} {[1 := 6]} in
  Cache.clear "n" c = Cache.mk {["a" := 1]} ["b"] ["b"] [] {["a" := 5]} {[1 := 6]}
  /\ (Cache.clear "n" c = c <-> Cache.raw_message_updates c = []).
Proof.
  intros c. apply (clear_absent "n" c).
  - reflexivity.
  - apply (bool_decide_unpack _). vm_compute. reflexivity.
  - apply (bool_decide_unpack _). vm_compute. reflexivity.
  - reflexivity.
Defined.

(** C10.  With the confirmation phrases in the text, [buy] takes the
    price it reports as loss from the second bold span of the text (taken
    without its commas) and [sell] takes the price it reports as gain
    from the first; the amount is the first run of digits [ds] of that
    span [a ++ ds ++ c]. *)
Theorem buy_sell_price (description item : string) (quantity : Z) (a ds c : string) :
  no_digit a = true -> is_number ds = true -> ends_number c = true ->
  let spans := Re.findall Pat.bold (Parser.strip_commas description) in
  (signal (Buy item quantity) description = true ->
   spans !! 1%nat = Some (a ++ ds ++ c) ->
   Parser.buy description item quantity
   = Ok {| success := true; death := None;
           gain := Some {[kint quantity := VStr item]};
           loss := Some {[kstr "coins" := VInt (decimal ds)]};
           cooldown := None |})
  /\ (signal (Sell item quantity) description = true ->
      spans !! 0%nat = Some (a ++ ds ++ c) ->
      Parser.sell description item quantity
      = Ok {| success := true; death := None;
              gain := Some {[kstr "coins" := VInt (decimal ds)]};
              loss := Some {[kint quantity := VStr item]};
              cooldown := None |}).
Proof.
  intros Ha Hds Hc spans.
  pose proof (findall_number_first a ds c Ha Hds Hc) as Hn.
  split; intros Hs Hb; cbn [signal] in Hs.
  - unfold Parser.buy, Parser.price, getitem. fold spans.
    rewrite Hs, Hb. cbn [mbind res_bind].
    rewrite Hn. cbn [mbind res_bind]. rewrite (py_int_number ds Hds). reflexivity.
  - unfold Parser.sell, Parser.price, getitem. fold spans.
    rewrite Hs, Hb. cbn [mbind res_bind].
    rewrite Hn. cbn [mbind res_bind]. rewrite (py_int_number ds Hds). reflexivity.
Qed.

Lemma buy_sell_price_witness :
  Parser.buy "You bought **2 Apple** and paid **⏣ 1,250**" "apple" 2
  = Ok {| success := true; death := None;
          gain := Some {[kint 2 := VStr "apple"]};
          loss := Some {[kstr "coins" := VInt 1250]}; cooldown := None |}
  /\ Parser.sell "You sold 3 Apple and got paid **⏣ 90** for it" "apple" 3
     = Ok {| success := true; death := None;
             gain := Some {[kstr "coins" := VInt 90]};
             loss := Some {[kint 3 := VStr "apple"]}; cooldown := None |}.
Proof.
  split.
  - apply (proj1 (buy_sell_price "You bought **2 Apple** and paid **⏣ 1,250**" "apple" 2
                    "⏣ " "1250" "" eq_refl eq_refl eq_refl)); vm_compute; reflexivity.
  - apply (proj2 (buy_sell_price "You sold 3 Apple and got paid **⏣ 90** for it" "apple" 3
                    "⏣ " "90" "" eq_refl eq_refl eq_refl)); vm_compute; reflexivity.
Defined.

(** * Further properties of the code *)

(** ** More on strings *)

Section MoreStrings.
Import PyStr.

Lemma all_chars_app (p : ascii -> bool) (a b : string) :
  all_chars p (a ++ b) = all_chars p a && all_chars p b.
Proof.
  induction a as [|c a IH]; [reflexivity|].
  rewrite append_cons. cbn [all_chars]. rewrite IH, andb_assoc. reflexivity.
Qed.

Lemma lacks_app (cs : list ascii) (a b : string) :
  lacks cs (a ++ b) = lacks cs a && lacks cs b.
Proof. apply all_chars_app. Qed.

Lemma lacks_cons (cs : list ascii) (c : ascii) (s : string) :
  lacks cs (String c s) = negb (existsb (Ascii.eqb c) cs) && lacks cs s.
Proof. reflexivity. Qed.

(** A character that is no digit does not occur in a text of digits. *)
Lemma digits_lack (x : ascii) (ds : string) :
  is_digit x = false -> all_chars is_digit ds = true -> lacks [x] ds = true.
Proof.
  intros Hx. induction ds as [|d ds IH]; [reflexivity|].
  cbn [all_chars]. intros [Hd Hds]%andb_true_iff. rewrite lacks_cons, (IH Hds).
  cbn [existsb]. destruct (Ascii.eqb d x) eqn:E; [|reflexivity].
  apply Ascii.eqb_eq in E. congruence.
Qed.

(** Splitting at a separator that the first part lacks. *)
Lemma split_app_sep (sep : ascii) (a b : string) :
  lacks [sep] a = true -> split sep (a ++ String sep b) = a :: split sep b.
Proof.
  induction a as [|c a IH].
  - intros _. rewrite append_nil_l. cbn [split]. rewrite ascii_eqb_refl. reflexivity.
  - rewrite lacks_cons, append_cons. cbn [existsb]. rewrite orb_false_r.
    intros [Hc Ha]%andb_true_iff. apply negb_true_iff in Hc.
    cbn [split]. rewrite Hc, (IH Ha). reflexivity.
Qed.

Lemma split_not_nil (sep : ascii) (s : string) : split sep s <> [].
Proof.
  induction s as [|c s IH]; [discriminate|]. cbn [split].
  destruct (Ascii.eqb c sep); [discriminate|]. destruct (split sep s); discriminate.
Qed.

(** Joining the parts of a text with the separator gives the text back. *)
Lemma join_split (sep : ascii) (s : string) :
  join (String sep "") (split sep s) = s.
Proof.
  induction s as [|c s IH]; [reflexivity|]. cbn [split].
  destruct (Ascii.eqb c sep) eqn:E.
  - apply Ascii.eqb_eq in E. subst c. pose proof (split_not_nil sep s) as Hn.
    destruct (split sep s) as [|h t] eqn:Es; [congruence|].
    change (join (String sep "") ("" :: h :: t))
      with ("" ++ String sep "" ++ join (String sep "") (h :: t)).
    rewrite IH. reflexivity.
  - pose proof (split_not_nil sep s) as Hn.
    destruct (split sep s) as [|h t] eqn:Es; [congruence|].
    destruct t as [|h' t].
    + cbn [join] in *. rewrite IH. reflexivity.
    + change (join (String sep "") (String c h :: h' :: t))
        with (String c h ++ String sep "" ++ join (String sep "") (h' :: t)).
      change (join (String sep "") (h :: h' :: t))
        with (h ++ String sep "" ++ join (String sep "") (h' :: t)) in IH.
      rewrite append_cons, IH. reflexivity.
Qed.

(** [old] at the end of a text that lacks its first character. *)
Lemma replace_tail (x : ascii) (old u : string) :
  lacks [x] u = true -> replace (String x old) "" (u ++ String x old) = u.
Proof.
  unfold replace. induction u as [|c u IH].
  - intros _. rewrite append_nil_l. cbn [replace_from startswith].
    rewrite ascii_eqb_refl.
    assert (startswith old old = true) as ->.
    { rewrite <- (append_nil_r old) at 2. apply startswith_app. }
    rewrite append_nil_l. cbn [String.length Nat.pred].
    rewrite <- (append_nil_r old) at 3. rewrite replace_from_skip. reflexivity.
  - rewrite lacks_cons, append_cons. cbn [existsb]. rewrite orb_false_r.
    intros [Hc Hu]%andb_true_iff. apply negb_true_iff in Hc.
    cbn [replace_from startswith]. rewrite Ascii.eqb_sym, Hc, (IH Hu). reflexivity.
Qed.

(** [old] around a text that lacks its first character. *)
Lemma replace_wrapped (x : ascii) (old u : string) :
  lacks [x] u = true ->
  replace (String x old) "" (String x old ++ u ++ String x old) = u.
Proof.
  intros Hu. unfold replace. rewrite append_cons. cbn [replace_from startswith].
  rewrite ascii_eqb_refl, startswith_app, append_nil_l. cbn [String.length Nat.pred].
  rewrite replace_from_skip. apply (replace_tail x old u Hu).
Qed.

(** A text found in [s] is found in every text around [s]. *)
Lemma startswith_app_r (p s t : string) :
  startswith p s = true -> startswith p (s ++ t) = true.
Proof.
  revert s. induction p as [|c p IH]; intros s; [reflexivity|].
  destruct s as [|d s]; [discriminate|]. rewrite append_cons. cbn [startswith].
  destruct (Ascii.eqb c d); [apply IH | discriminate].
Qed.

Lemma contains_app_r (sub s t : string) :
  contains sub s = true -> contains sub (s ++ t) = true.
Proof.
  induction s as [|c s IH].
  - cbn [contains]. intros H. destruct sub; [|discriminate].
    rewrite append_nil_l. destruct t; reflexivity.
  - rewrite append_cons. cbn [contains].
    destruct (startswith sub (String c s)) eqn:E.
    + intros _. rewrite <- append_cons, (startswith_app_r _ _ t E). reflexivity.
    + intros H. rewrite (IH H). destruct (startswith sub (String c (s ++ t))); reflexivity.
Qed.

Lemma contains_app_pre (sub pre s : string) :
  contains sub s = true -> contains sub (pre ++ s) = true.
Proof.
  intros H. induction pre as [|c pre IH]; [exact H|].
  rewrite append_cons. cbn [contains]. rewrite IH.
  destruct (startswith sub (String c (pre ++ s))); reflexivity.
Qed.

End MoreStrings.

(** ** More on the matcher *)

Section MoreRegex.
Import PyStr Re.

Lemma findall_from_skip (re : regex) (m rest : string) :
  findall_from re (String.length m) (m ++ rest) = findall re rest.
Proof.
  induction m as [|c m IH].
  - rewrite append_nil_l. unfold findall. destruct rest; reflexivity.
  - rewrite append_cons. cbn [String.length findall_from]. exact IH.
Qed.

(** After a match at the head [findall] goes on behind it. *)
Lemma findall_cons (re : regex) (c : ascii) (m rest found : string) :
  match_at re (String c m ++ rest) = Some (found, S (String.length m)) ->
  findall re (String c m ++ rest) = found :: findall re rest.
Proof.
  intros H. unfold findall at 1. rewrite append_cons in *. cbn [findall_from].
  rewrite H. cbn [Nat.pred]. rewrite findall_from_skip. reflexivity.
Qed.

(** No match in a text in which the pattern cannot begin. *)
Lemma findall_nowhere (re : regex) (k : cclass) (q : quant) (s : string) :
  first_atom re = Some (Atom k q) -> q = Once \/ q = Plus ->
  all_chars (fun c => negb (in_class k c)) s = true ->
  findall re s = [].
Proof.
  intros Hf Hq Hs. rewrite <- (append_nil_r s).
  apply (findall_skip re k q s "" Hf Hq Hs).
Qed.

Lemma findall_bold_none (s : string) :
  lacks ["*"%char] s = true -> findall Pat.bold s = [].
Proof.
  intros H. apply (findall_nowhere Pat.bold (Chr "*") Once s eq_refl (or_introl eq_refl)).
  apply lacks_outside, H.
Qed.

Lemma findall_coins_none (s : string) :
  lacks ["*"%char] s = true -> findall Pat.coins s = [].
Proof.
  intros H. apply (findall_nowhere Pat.coins (Chr "*") Once s eq_refl (or_introl eq_refl)).
  apply lacks_outside, H.
Qed.

Lemma findall_number_none (s : string) :
  no_digit s = true -> findall Pat.number s = [].
Proof.
  intros H. apply (findall_nowhere Pat.number Digit Plus s eq_refl (or_intror eq_refl) H).
Qed.

(** A literal text matches itself. *)
Lemma match_seq_lit (l : string) (r : list atom) (s : string) :
  match_seq (lit l ++ r) (l ++ s)
  = option_map (fun v => (map (fun c => String c "") (list_ascii_of_string l) ++ v)%list)
      (match_seq r s).
Proof.
  induction l as [|c l IH].
  - rewrite append_nil_l. cbn. destruct (match_seq r s); reflexivity.
  - rewrite append_cons. cbn [lit app]. rewrite match_seq_once. cbn [in_class].
    rewrite ascii_eqb_refl, IH. destruct (match_seq r s); reflexivity.
Qed.

Lemma concat_segments (a b : list string) : concat (a ++ b)%list = concat a ++ concat b.
Proof.
  induction a as [|x a IH]; [reflexivity|].
  cbn [app concat foldr] in *. fold (concat (a ++ b)%list). fold (concat a).
  rewrite IH, append_assoc. reflexivity.
Qed.

Lemma concat_letters (l : string) :
  concat (map (fun c => String c "") (list_ascii_of_string l)) = l.
Proof.
  induction l as [|c l IH]; [reflexivity|].
  cbn [list_ascii_of_string map concat foldr]. fold (concat (map (fun c => String c "") (list_ascii_of_string l))).
  rewrite IH. reflexivity.
Qed.

(** The bold spans, one after the other. *)
Lemma findall_bold_cons (pre c rest : string) :
  lacks ["*"%char] pre = true -> lacks ["*"%char; newline] c = true ->
  findall Pat.bold (pre ++ "**" ++ c ++ "**" ++ rest) = c :: findall Pat.bold rest.
Proof.
  intros Hpre Hc.
  rewrite (findall_skip Pat.bold (Chr "*") Once pre _ eq_refl (or_introl eq_refl)
             (lacks_outside _ _ Hpre)).
  replace ("**" ++ c ++ "**" ++ rest) with (String "*" ("*" ++ c ++ "**") ++ rest)
    by (rewrite ?append_cons, ?append_nil_l, ?append_assoc, ?append_cons, ?append_nil_l; reflexivity).
  apply findall_cons. unfold match_at. cbn [Pat.bold r_before r_group r_after].
  replace (String "*" ("*" ++ c ++ "**") ++ rest) with ("**" ++ c ++ String "*" ("*" ++ rest))
    by (rewrite ?append_cons, ?append_nil_l, ?append_assoc, ?append_cons, ?append_nil_l; reflexivity).
  rewrite (match_seq_lit "**" ([Atom Dot StarLazy] ++ lit "**")%list).
  cbn [app lit].
  rewrite (lazy_dot_until "*" [Atom (Chr "*") Once] c ("*" ++ rest) ["*"; "*"] Hc eq_refl).
  cbn [option_map list_ascii_of_string map app length drop take concat foldr].
  rewrite !append_cons, !append_nil_l, append_nil_r. cbn [String.length].
  rewrite !length_append. cbn [String.length]. do 2 f_equal; lia.
Qed.

(** Nothing of class [.] followed by [x] in a text without [x]. *)
Lemma dot_run_fails {A : Type} (greedy : bool) (x : ascii) (rest : string -> option A)
    (s : string) :
  (forall c t, c <> x -> rest (String c t) = None) -> rest "" = None ->
  lacks [x] s = true ->
  repeat_class greedy 0 Dot rest s = None.
Proof.
  intros Hr He. induction s as [|c s IH]; intros Hs.
  - cbn [repeat_class]. rewrite He. destruct greedy; reflexivity.
  - rewrite lacks_cons in Hs. cbn [existsb] in Hs. rewrite orb_false_r in Hs.
    apply andb_true_iff in Hs as [Hc Hs]. apply negb_true_iff, Ascii.eqb_neq in Hc.
    cbn [repeat_class Nat.pred]. rewrite (Hr c s Hc), (IH Hs). cbn [option_map].
    destruct greedy, (in_class Dot c); reflexivity.
Qed.

(** A greedy run of [.] takes the text [u] when the rest of the pattern
    matches behind [u] and nowhere later. *)
Lemma greedy_dot {A : Type} (rest : string -> option A) (least : nat)
    (u tail : string) (v : A) :
  lacks [newline] u = true -> rest tail = Some v ->
  match tail with
  | String c t => in_class Dot c = false \/ repeat_class true 0 Dot rest t = None
  | EmptyString => True
  end ->
  (least <= String.length u)%nat ->
  repeat_class true least Dot rest (u ++ tail) = Some (u, v).
Proof.
  intros Hu Hv Htail. revert least.
  induction u as [|c u IH]; intros least Hl.
  - rewrite append_nil_l. cbn [String.length] in Hl. assert (least = 0%nat) as -> by lia.
    destruct tail as [|c t]; cbn [repeat_class].
    + rewrite Hv. reflexivity.
    + cbn [Nat.pred]. destruct Htail as [-> | ->]; [rewrite Hv; reflexivity|].
      cbn [option_map]. rewrite Hv. destruct (in_class Dot c); reflexivity.
  - rewrite lacks_cons in Hu. cbn [existsb] in Hu. rewrite orb_false_r in Hu.
    apply andb_true_iff in Hu as [Hc Hu].
    rewrite append_cons. cbn [repeat_class]. unfold in_class at 1. rewrite Hc.
    cbn [negb]. rewrite (IH Hu); [reflexivity|]. cbn [String.length] in Hl. lia.
Qed.

End MoreRegex.

(** ** The patterns on a reply of known shape *)

Section Patterns.
Import PyStr Re.

Lemma repeat_class_cons {A : Type} (greedy : bool) (least : nat) (k : cclass)
    (rest : string -> option A) (c : ascii) (s : string) :
  repeat_class greedy least k rest (String c s)
  = let stop :=
      match least with
      | O => option_map (pair "") (rest (String c s))
      | S _ => None
      end in
    let more :=
      if in_class k c
      then option_map (fun r => (String c (fst r), snd r))
             (repeat_class greedy (Nat.pred least) k rest s)
      else None in
    if greedy
    then match more with Some r => Some r | None => stop end
    else match stop with Some r => Some r | None => more end.
Proof. reflexivity. Qed.

Lemma repeat_class_rest {A : Type} (greedy : bool) (least : nat) (k : cclass)
    (rest : string -> option A) (s seg : string) (v : A) :
  repeat_class greedy least k rest s = Some (seg, v) -> exists t, rest t = Some v.
Proof.
  revert least seg. induction s as [|c s IH]; intros least seg.
  - cbn [repeat_class]. destruct greedy, least; try discriminate;
      destruct (rest "") eqn:E; try discriminate; intros [= <- <-]; eauto.
  - rewrite repeat_class_cons. cbv zeta.
    assert (match least with
            | O => option_map (pair "") (rest (String c s))
            | S _ => None
            end = Some (seg, v) -> exists t, rest t = Some v) as Hstop.
    { destruct least; [|discriminate].
      destruct (rest (String c s)) eqn:E; [|discriminate]. intros [= <- <-]. eauto. }
    assert ((if in_class k c
             then option_map (fun r => (String c (fst r), snd r))
                    (repeat_class greedy (Nat.pred least) k rest s)
             else None) = Some (seg, v) -> exists t, rest t = Some v) as Hmore.
    { destruct (in_class k c); [|discriminate].
      destruct (repeat_class greedy (Nat.pred least) k rest s) as [[g w]|] eqn:E;
        [|discriminate].
      intros [= <- <-]. eapply IH, E. }
    destruct greedy.
    + destruct (if in_class k c then _ else None) as [p|] eqn:E.
      * intros [= ->]. apply Hmore. reflexivity.
      * exact Hstop.
    + destruct (match least with O => _ | S _ => None end) as [p|] eqn:E.
      * intros [= ->]. apply Hstop. reflexivity.
      * exact Hmore.
Qed.

Lemma lacks_two (x y : ascii) (s : string) :
  lacks [x; y] s = lacks [x] s && lacks [y] s.
Proof.
  induction s as [|c s IH]; [reflexivity|].
  rewrite !lacks_cons, IH. cbn [existsb]. rewrite !orb_false_r.
  destruct (Ascii.eqb c x), (Ascii.eqb c y), (lacks [x] s), (lacks [y] s); reflexivity.
Qed.

(** One text per atom. *)
Lemma match_seq_length (r : list atom) (s : string) (segs : list string) :
  match_seq r s = Some segs -> length segs = length r.
Proof.
  revert s segs. induction r as [|[k q] r IH]; intros s segs.
  - intros [= <-]. reflexivity.
  - destruct q.
    + destruct s as [|c s]; [discriminate|]. rewrite match_seq_once.
      destruct (in_class k c); [|discriminate].
      destruct (match_seq r s) eqn:E; [|discriminate]. intros [= <-].
      cbn [length]. f_equal. eapply IH, E.
    + rewrite match_seq_many by discriminate.
      destruct (repeat_class _ _ _ _ _) as [[seg v]|] eqn:E; [|discriminate].
      intros [= <-]. apply repeat_class_rest in E as [t E]. cbn [length fst snd].
      f_equal. eapply IH, E.
    + rewrite match_seq_many by discriminate.
      destruct (repeat_class _ _ _ _ _) as [[seg v]|] eqn:E; [|discriminate].
      intros [= <-]. apply repeat_class_rest in E as [t E]. cbn [length fst snd].
      f_equal. eapply IH, E.
    + rewrite match_seq_many by discriminate.
      destruct (repeat_class _ _ _ _ _) as [[seg v]|] eqn:E; [|discriminate].
      intros [= <-]. apply repeat_class_rest in E as [t E]. cbn [length fst snd].
      f_equal. eapply IH, E.
Qed.

(** A pattern without a group reports the whole match. *)
Lemma match_at_whole (r : list atom) (s : string) (segs : list string) :
  match_seq r s = Some segs ->
  match_at (whole r) s = Some (concat segs, String.length (concat segs)).
Proof.
  intros H. unfold match_at. cbn [whole r_before r_group r_after app length drop].
  rewrite app_nil_r, H. pose proof (match_seq_length r s segs H) as L.
  rewrite drop_0, take_ge by lia. reflexivity.
Qed.

Lemma findall_whole_first (r : list atom) (k : cclass) (q : quant) (pre : string)
    (c : ascii) (s : string) (segs : list string) :
  head r = Some (Atom k q) -> q = Once \/ q = Plus ->
  all_chars (fun x => negb (in_class k x)) pre = true ->
  match_seq r (String c s) = Some segs ->
  findall (whole r) (pre ++ String c s) !! 0%nat = Some (concat segs).
Proof.
  intros Hh Hq Hpre Hm.
  rewrite (findall_skip (whole r) k q pre _).
  - eapply findall_head, match_at_whole, Hm.
  - unfold first_atom. cbn [whole r_before r_group r_after app]. rewrite app_nil_r. exact Hh.
  - exact Hq.
  - exact Hpre.
Qed.

#[local] Abbreviation chars l := (map (fun c => String c "") (list_ascii_of_string l)).

(** The first coin amount. *)
Lemma findall_coins_first (pre ds post : string) :
  lacks ["*"%char] pre = true -> is_number ds = true ->
  findall Pat.coins (pre ++ "**⏣ " ++ ds ++ "**" ++ post) !! 0%nat
  = Some ("**⏣ " ++ ds ++ "**").
Proof.
  intros Hpre [[Hne Hds]%andb_true_iff Hlen]%andb_true_iff.
  assert (match_seq (lit "**⏣ " ++ [Atom Digit Plus] ++ lit "**")
            ("**⏣ " ++ ds ++ "**" ++ post)
          = Some (chars "**⏣ " ++ [ds; "*"; "*"])%list) as Hm.
  { rewrite match_seq_lit. cbn [app]. rewrite match_seq_many by discriminate.
    rewrite (greedy_digits (match_seq (lit "**")) 1 ds ("**" ++ post) ["*"; "*"]);
      try reflexivity; [exact Hds|].
    destruct ds; [discriminate|]. cbn [String.length]. lia. }
  pose proof (findall_whole_first (lit "**⏣ " ++ [Atom Digit Plus] ++ lit "**")%list
                (Chr "*") Once pre "*" ("*⏣ " ++ ds ++ "**" ++ post) _
                eq_refl (or_introl eq_refl) (lacks_outside _ _ Hpre) Hm) as H.
  rewrite concat_segments, concat_letters in H. exact H.
Qed.

(** The first amount of items. *)
Lemma findall_amount_first (pre ds rest : string) :
  lacks ["*"%char] pre = true -> is_number ds = true ->
  findall Pat.amount (pre ++ "**" ++ ds ++ "x" ++ rest) !! 0%nat
  = Some ("**" ++ ds ++ "x").
Proof.
  intros Hpre [[Hne Hds]%andb_true_iff Hlen]%andb_true_iff.
  assert (match_seq (lit "**" ++ [Atom Digit Plus] ++ lit "x")
            ("**" ++ ds ++ "x" ++ rest)
          = Some (chars "**" ++ [ds; "x"])%list) as Hm.
  { rewrite match_seq_lit. cbn [app]. rewrite match_seq_many by discriminate.
    rewrite (greedy_digits (match_seq (lit "x")) 1 ds ("x" ++ rest) ["x"]);
      try reflexivity; [exact Hds|].
    destruct ds; [discriminate|]. cbn [String.length]. lia. }
  pose proof (findall_whole_first (lit "**" ++ [Atom Digit Plus] ++ lit "x")%list
                (Chr "*") Once pre "*" ("*" ++ ds ++ "x" ++ rest) _
                eq_refl (or_introl eq_refl) (lacks_outside _ _ Hpre) Hm) as H.
  rewrite concat_segments, concat_letters in H. exact H.
Qed.

(** No [**] begins in a text without [*], nor one character before it. *)
Lemma no_close_later (post : string) :
  lacks ["*"%char] post = true ->
  repeat_class true 0 Dot (match_seq (lit "**")) ("*" ++ post) = None.
Proof.
  intros Hp.
  assert (repeat_class true 0 Dot (match_seq (lit "**")) post = None) as Hrun.
  { apply (dot_run_fails true "*"); [| reflexivity | exact Hp].
    intros c t Hc. apply match_seq_miss; [left; reflexivity|].
    cbn [in_class]. apply Ascii.eqb_neq. congruence. }
  change ("*" ++ post) with (String "*" post). cbn [repeat_class Nat.pred].
  rewrite Hrun. cbn [lit]. rewrite match_seq_once. cbn [in_class option_map].
  rewrite ascii_eqb_refl.
  destruct post as [|c post]; [reflexivity|].
  rewrite lacks_cons in Hp. cbn [existsb] in Hp. rewrite orb_false_r in Hp.
  apply andb_true_iff in Hp as [Hc _]. apply negb_true_iff in Hc.
  rewrite match_seq_once. cbn [in_class]. rewrite Ascii.eqb_sym in Hc. rewrite Hc.
  reflexivity.
Qed.

(** The amount with its item: the greedy [.+] runs to the last [**] of the
    line. *)
Lemma findall_amount_item_first (pre ds body post : string) :
  lacks ["*"%char] pre = true -> is_number ds = true ->
  lacks ["*"%char; newline] body = true -> body <> "" ->
  lacks ["*"%char] post = true ->
  findall Pat.amount_item (pre ++ "**" ++ ds ++ "x " ++ body ++ "**" ++ post) !! 0%nat
  = Some ("**" ++ ds ++ "x " ++ body ++ "**").
Proof.
  intros Hpre [[Hne Hds]%andb_true_iff Hlen]%andb_true_iff Hb Hbne Hpost.
  rewrite lacks_two in Hb. apply andb_true_iff in Hb as [Hbs Hnl].
  assert (match_seq (lit "**" ++ [Atom Digit Plus] ++ lit "x " ++ [Atom Dot Plus] ++ lit "**")
            ("**" ++ ds ++ "x " ++ body ++ "**" ++ post)
          = Some (chars "**" ++ [ds] ++ chars "x " ++ [body; "*"; "*"])%list) as Hm.
  { rewrite match_seq_lit. cbn [app]. rewrite match_seq_many by discriminate.
    rewrite (greedy_digits (match_seq (lit "x " ++ Atom Dot Plus :: lit "**")%list) 1 ds
               ("x " ++ body ++ "**" ++ post) (chars "x " ++ [body; "*"; "*"])%list);
      try reflexivity; [exact Hds | destruct ds; [discriminate|]; cbn [String.length]; lia |].
    rewrite match_seq_lit. cbn [app]. rewrite match_seq_many by discriminate.
    rewrite (greedy_dot (match_seq (lit "**")) 1 body ("**" ++ post) ["*"; "*"] Hnl eq_refl);
      [reflexivity | right; apply no_close_later, Hpost |].
    destruct body; [congruence|]. cbn [String.length]. lia. }
  pose proof (findall_whole_first
                (lit "**" ++ [Atom Digit Plus] ++ lit "x " ++ [Atom Dot Plus] ++ lit "**")%list
                (Chr "*") Once pre "*"
                ("*" ++ ds ++ "x " ++ body ++ "**" ++ post) _
                eq_refl (or_introl eq_refl) (lacks_outside _ _ Hpre) Hm) as H.
  rewrite !concat_segments, !concat_letters in H. cbn [concat foldr] in H.
  rewrite append_nil_r in H. refine (eq_trans H _). f_equal;
    rewrite ?append_assoc, ?append_cons, ?append_nil_l; reflexivity.
Qed.

(** The catch: the greedy [.*] runs to the last [*] of the line. *)
Lemma findall_catch_first (pre body post : string) :
  lacks ["*"%char] pre = true ->
  lacks ["*"%char; newline] body = true ->
  lacks ["*"%char] post = true ->
  findall Pat.catch (pre ++ "**" ++ body ++ "**" ++ post) !! 0%nat
  = Some ("**" ++ body ++ "**").
Proof.
  intros Hpre Hb Hpost.
  rewrite lacks_two in Hb. apply andb_true_iff in Hb as [Hbs Hnl].
  assert (match_seq (lit "**" ++ [Atom Dot Star] ++ lit "*")
            ("**" ++ (body ++ "*") ++ "*" ++ post)
          = Some (chars "**" ++ [(body ++ "*")%string; "*"])%list) as Hm.
  { rewrite match_seq_lit. cbn [app]. rewrite match_seq_many by discriminate.
    rewrite (greedy_dot (match_seq (lit "*")) 0 (body ++ "*") ("*" ++ post) ["*"]);
      [reflexivity | | reflexivity | | lia].
    - rewrite lacks_app, Hnl. reflexivity.
    - right. apply (dot_run_fails true "*"); [| reflexivity | exact Hpost].
      intros c t Hc. apply match_seq_miss; [left; reflexivity|].
      cbn [in_class]. apply Ascii.eqb_neq. congruence. }
  pose proof (findall_whole_first (lit "**" ++ [Atom Dot Star] ++ lit "*")%list
                (Chr "*") Once pre "*"
                ("*" ++ (body ++ "*") ++ "*" ++ post) _
                eq_refl (or_introl eq_refl) (lacks_outside _ _ Hpre) Hm) as H.
  rewrite !concat_segments, !concat_letters in H. cbn [concat foldr] in H.
  rewrite append_nil_r in H.
  replace (pre ++ "**" ++ body ++ "**" ++ post)
    with (pre ++ String "*" ("*" ++ (body ++ "*") ++ "*" ++ post))
    by (rewrite ?append_assoc, ?append_cons, ?append_nil_l; reflexivity).
  refine (eq_trans H _). f_equal;
    rewrite ?append_assoc, ?append_cons, ?append_nil_l; reflexivity.
Qed.


End Patterns.

(** ** Texts on which a pattern cannot match *)

Section Nowhere.
Import PyStr Re.

Lemma findall_step (re : regex) (c : ascii) (s : string) :
  match_at re (String c s) = None -> findall re (String c s) = findall re s.
Proof. intros H. unfold findall. cbn [findall_from]. rewrite H. reflexivity. Qed.

Lemma match_at_none (re : regex) (s : string) :
  match_seq (r_before re ++ r_group re ++ r_after re) s = None -> match_at re s = None.
Proof. intros H. unfold match_at. rewrite H. reflexivity. Qed.

Lemma repeat_class_none {A : Type} (greedy : bool) (least : nat) (k : cclass)
    (rest : string -> option A) (x : ascii) (s : string) :
  (forall t, lacks [x] t = true -> rest t = None) -> lacks [x] s = true ->
  repeat_class greedy least k rest s = None.
Proof.
  intros Hr. revert least. induction s as [|c s IH]; intros least Hs.
  - cbn [repeat_class]. rewrite (Hr "" eq_refl). destruct greedy, least; reflexivity.
  - rewrite repeat_class_cons. cbv zeta. rewrite (Hr _ Hs).
    rewrite lacks_cons in Hs. apply andb_true_iff in Hs as [_ Hs].
    rewrite (IH _ Hs). cbn [option_map].
    destruct greedy, least, (in_class k c); reflexivity.
Qed.

(** A pattern with a literal [x] does not match in a text without [x]. *)
Lemma match_seq_needs (x : ascii) (r : list atom) (s : string) :
  In (Atom (Chr x) Once) r -> lacks [x] s = true -> match_seq r s = None.
Proof.
  revert s. induction r as [|[k q] r IH]; intros s; [intros []|].
  intros [E | Hin] Hs.
  - injection E as -> ->. destruct s as [|c s]; [reflexivity|].
    apply match_seq_miss; [left; reflexivity|].
    rewrite lacks_cons in Hs. cbn [existsb] in Hs. rewrite orb_false_r in Hs.
    apply andb_true_iff in Hs as [Hc _]. apply negb_true_iff in Hc.
    cbn [in_class]. rewrite Ascii.eqb_sym. exact Hc.
  - destruct q.
    + destruct s as [|c s]; [reflexivity|]. rewrite match_seq_once.
      rewrite lacks_cons in Hs. apply andb_true_iff in Hs as [_ Hs].
      rewrite (IH s Hin Hs). destruct (in_class k c); reflexivity.
    + rewrite match_seq_many by discriminate.
      rewrite (repeat_class_none _ _ _ _ x s (fun t Ht => IH t Hin Ht) Hs). reflexivity.
    + rewrite match_seq_many by discriminate.
      rewrite (repeat_class_none _ _ _ _ x s (fun t Ht => IH t Hin Ht) Hs). reflexivity.
    + rewrite match_seq_many by discriminate.
      rewrite (repeat_class_none _ _ _ _ x s (fun t Ht => IH t Hin Ht) Hs). reflexivity.
Qed.

Lemma findall_needs (re : regex) (x : ascii) (s : string) :
  In (Atom (Chr x) Once) (r_before re ++ r_group re ++ r_after re) ->
  lacks [x] s = true -> findall re s = [].
Proof.
  intros Hin. induction s as [|c s IH]; [reflexivity|]. intros Hs.
  rewrite findall_step.
  - apply IH. rewrite lacks_cons in Hs. apply andb_true_iff in Hs as [_ Hs]. exact Hs.
  - apply match_at_none, (match_seq_needs x _ _ Hin Hs).
Qed.

(** [description.replace(",", "")] keeps what a text lacks. *)
Lemma strip_commas_lacks (cs : list ascii) (s : string) :
  lacks cs s = true -> lacks cs (Parser.strip_commas s) = true.
Proof.
  unfold Parser.strip_commas, replace. induction s as [|c s IH]; [reflexivity|].
  rewrite lacks_cons. intros [Hc Hs]%andb_true_iff.
  cbn [replace_from startswith String.length Nat.pred].
  destruct (Ascii.eqb "," c).
  - rewrite append_nil_l. apply IH, Hs.
  - rewrite lacks_cons, Hc. apply IH, Hs.
Qed.

Lemma strip_commas_contains_not (s : string) :
  lacks [","%char] (Parser.strip_commas s) = true.
Proof.
  unfold Parser.strip_commas, replace. induction s as [|c s IH]; [reflexivity|].
  cbn [replace_from startswith String.length Nat.pred].
  destruct (Ascii.eqb "," c) eqn:E.
  - rewrite append_nil_l. exact IH.
  - rewrite lacks_cons, IH. cbn [existsb]. rewrite Ascii.eqb_sym, E. reflexivity.
Qed.

End Nowhere.

(** ** Replies with a coin amount *)

Section Extractors.
Import PyStr Re.

Lemma digits_plain (ds : string) :
  all_chars is_digit ds = true ->
  lacks ["*"%char; newline] ds = true /\ lacks ["<"%char] ds = true
  /\ lacks [" "%char] ds = true /\ lacks ["x"%char] ds = true.
Proof.
  intros H. rewrite lacks_two.
  rewrite !(digits_lack _ ds) by (exact H || reflexivity). auto.
Qed.

Lemma is_number_digits (ds : string) :
  is_number ds = true -> all_chars is_digit ds = true /\ ds <> "".
Proof.
  intros [[Hne Hds]%andb_true_iff _]%andb_true_iff. split; [exact Hds|].
  intros ->. discriminate.
Qed.

(** The coin amount of a text whose first [**] opens a coin span. *)
Lemma coin_amount_found (pre ds post : string) :
  lacks ["*"%char] pre = true -> is_number ds = true ->
  Parser.coin_amount (pre ++ "**⏣ " ++ ds ++ "**" ++ post) = Ok (decimal ds).
Proof.
  intros Hpre Hds. unfold Parser.coin_amount, getitem.
  rewrite (findall_coins_first pre ds post Hpre Hds). cbn [mbind res_bind].
  rewrite (findall_number_first "**⏣ " ds "**" eq_refl Hds eq_refl). cbn [mbind res_bind].
  apply py_int_number, Hds.
Qed.

Lemma coin_span_plain (ds : string) :
  is_number ds = true ->
  lacks ["*"%char; newline] ("⏣ " ++ ds) = true /\ lacks ["<"%char] ("⏣ " ++ ds) = true.
Proof.
  intros [Hds _]%is_number_digits. destruct (digits_plain ds Hds) as (H1 & H2 & _).
  rewrite !lacks_app, H1, H2. split; reflexivity.
Qed.

(** The bold spans of such a text: the coin span, then those behind it. *)
Lemma findall_bold_coins (pre ds rest : string) :
  lacks ["*"%char] pre = true -> is_number ds = true ->
  findall Pat.bold (pre ++ "**⏣ " ++ ds ++ "**" ++ rest)
  = ("⏣ " ++ ds) :: findall Pat.bold rest.
Proof.
  intros Hpre Hds.
  change (pre ++ "**⏣ " ++ ds ++ "**" ++ rest)
    with (pre ++ "**" ++ ("⏣ " ++ ds) ++ "**" ++ rest).
  apply findall_bold_cons; [exact Hpre | apply coin_span_plain, Hds].
Qed.

Lemma truthy_nonzero (n : Z) : n <> 0 -> Parser.truthy_int (Some n) = true.
Proof. intros H. cbn. apply negb_true_iff, Z.eqb_neq, H. Qed.

(** X1.  On a reply whose text, commas removed, has one bold span, the
    coin amount [**⏣ ds**] with [ds] a decimal number other than zero,
    and no other [*], [beg] and [crime] both return [success = True], the
    gain [{"coins": ds}], an empty loss and no cooldown. *)
Theorem beg_crime_coins_only (description pre ds post : string) :
  Parser.strip_commas description = pre ++ "**⏣ " ++ ds ++ "**" ++ post ->
  lacks ["*"%char] pre = true -> lacks ["*"%char] post = true ->
  is_number ds = true -> decimal ds <> 0 ->
  let r := {| success := true; death := None;
              gain := Some {[kstr "coins" := VInt (decimal ds)]};
              loss := Some ∅; cooldown := None |} in
  Parser.beg description = r /\ Parser.crime description = r.
Proof.
  intros Hd Hpre Hpost Hds Hnz r.
  assert (findall Pat.bold (Parser.strip_commas description) !! 1%nat = None) as Hb.
  { rewrite Hd, (findall_bold_coins pre ds post Hpre Hds), (findall_bold_none post Hpost).
    reflexivity. }
  split.
  - unfold Parser.beg, Parser.beg_item, getitem. rewrite Hb, Hd.
    rewrite (coin_amount_found pre ds post Hpre Hds). cbn [attempt].
    rewrite (truthy_nonzero _ Hnz). cbn [negb Parser.put_item Parser.truthy_str].
    unfold Parser.put_coins. rewrite (truthy_nonzero _ Hnz), insert_empty. reflexivity.
  - unfold Parser.crime, Parser.crime_item, getitem. rewrite Hb, Hd.
    rewrite (coin_amount_found pre ds post Hpre Hds). cbn [attempt].
    rewrite (truthy_nonzero _ Hnz). cbn [negb Parser.put_item Parser.truthy_str].
    unfold Parser.put_coins. rewrite (truthy_nonzero _ Hnz), insert_empty. reflexivity.
Qed.

Lemma beg_crime_coins_only_witness :
  let r := {| success := true; death := None;
              gain := Some {[kstr "coins" := VInt 1500]};
              loss := Some ∅; cooldown := None |} in
  Parser.beg "Here, take **⏣ 1,500**, friend" = r
  /\ Parser.crime "Here, take **⏣ 1,500**, friend" = r.
Proof.
  apply (beg_crime_coins_only "Here, take **⏣ 1,500**, friend" "Here take " "1500" " friend");
    vm_compute; first [reflexivity | discriminate].
Defined.

End Extractors.

Section Extractors2.
Import PyStr Re.

Lemma lacks_head (x c : ascii) (s : string) :
  lacks [x] (String c s) = true -> Ascii.eqb x c = false.
Proof.
  rewrite lacks_cons. cbn [existsb]. rewrite orb_false_r.
  intros [Hc _]%andb_true_iff. apply negb_true_iff in Hc. rewrite Ascii.eqb_sym. exact Hc.
Qed.

Lemma lacks_tail (cs : list ascii) (c : ascii) (s : string) :
  lacks cs (String c s) = true -> lacks cs s = true.
Proof. rewrite lacks_cons. intros [_ H]%andb_true_iff. exact H. Qed.

(** A pattern that opens with [**] finds nothing in a text with one pair
    of [**] when what follows the [**] matches behind neither. *)
Lemma findall_one_span_none (re : regex) (r : list atom) (pre u post : string) :
  (r_before re ++ r_group re ++ r_after re)%list = (lit "**" ++ r)%list ->
  lacks ["*"%char] pre = true -> lacks ["*"%char] u = true -> u <> "" ->
  lacks ["*"%char] post = true ->
  match_seq r (u ++ "**" ++ post) = None -> match_seq r post = None ->
  findall re (pre ++ "**" ++ u ++ "**" ++ post) = [].
Proof.
  intros Hre Hpre Hu Hne Hpost Hm1 Hm2.
  assert (first_atom re = Some (Atom (Chr "*") Once)) as Hf.
  { unfold first_atom. rewrite Hre. reflexivity. }
  assert (forall s, match_seq r s = None -> match_at re ("**" ++ s) = None) as Hss.
  { intros s Hs. apply match_at_none. rewrite Hre, match_seq_lit, Hs. reflexivity. }
  assert (forall s, lacks ["*"%char] s = true -> match_at re (String "*" s) = None) as Hs1.
  { intros s Hs. apply match_at_none. rewrite Hre. cbn [lit app]. rewrite match_seq_once.
    cbn [in_class]. rewrite ascii_eqb_refl.
    destruct s as [|c s]; [reflexivity|].
    rewrite match_seq_once. cbn [in_class]. rewrite (lacks_head _ _ _ Hs). reflexivity. }
  rewrite (findall_skip re (Chr "*") Once pre _ Hf (or_introl eq_refl)
             (lacks_outside _ _ Hpre)).
  change ("**" ++ u ++ "**" ++ post) with (String "*" (String "*" (u ++ "**" ++ post))).
  rewrite findall_step by (apply (Hss _ Hm1)).
  destruct u as [|c u]; [congruence|].
  rewrite findall_step.
  2:{ apply match_at_none. rewrite Hre. cbn [lit app]. rewrite match_seq_once.
      cbn [in_class]. rewrite ascii_eqb_refl, append_cons, match_seq_once.
      cbn [in_class]. rewrite (lacks_head _ _ _ Hu). reflexivity. }
  rewrite (findall_skip re (Chr "*") Once (String c u) _ Hf (or_introl eq_refl)
             (lacks_outside _ _ Hu)).
  change ("**" ++ post) with (String "*" (String "*" post)).
  rewrite findall_step by (apply (Hss _ Hm2)).
  rewrite findall_step by (apply (Hs1 _ Hpost)).
  apply (findall_nowhere re (Chr "*") Once post Hf (or_introl eq_refl)
           (lacks_outside _ _ Hpost)).
Qed.

Lemma match_digits_miss (r : list atom) (s : string) :
  ends_number s = true -> match_seq (Atom Digit Plus :: r) s = None.
Proof.
  destruct s as [|c s]; [reflexivity|]. cbn [ends_number]. intros H.
  apply match_seq_miss; [right; reflexivity|]. apply negb_true_iff, H.
Qed.

(** No amount of items in a reply whose only bold span is a coin amount. *)
Lemma findall_amount_none (pre ds post : string) :
  lacks ["*"%char] pre = true -> is_number ds = true ->
  lacks ["*"%char] post = true -> ends_number post = true ->
  findall Pat.amount (pre ++ "**⏣ " ++ ds ++ "**" ++ post) = [].
Proof.
  intros Hpre Hds Hpost He.
  destruct (coin_span_plain ds Hds) as [Hsp _]. rewrite lacks_two in Hsp.
  apply andb_true_iff in Hsp as [Hsp _].
  change (pre ++ "**⏣ " ++ ds ++ "**" ++ post)
    with (pre ++ "**" ++ ("⏣ " ++ ds) ++ "**" ++ post).
  apply (findall_one_span_none Pat.amount ([Atom Digit Plus] ++ lit "x")%list);
    try assumption; try reflexivity.
  - discriminate.
  - apply match_digits_miss, He.
Qed.

(** No coin amount in a reply whose only bold span begins with a digit. *)
Lemma findall_coins_none_digits (pre d u post : string) :
  lacks ["*"%char] pre = true -> lacks ["*"%char] (d ++ u) = true ->
  is_number d = true -> lacks ["*"%char] post = true ->
  findall Pat.coins (pre ++ "**" ++ (d ++ u) ++ "**" ++ post) = [].
Proof.
  intros Hpre Hu Hd Hpost.
  destruct (is_number_digits d Hd) as [Hds Hne].
  apply (findall_one_span_none Pat.coins
           (lit "⏣ " ++ [Atom Digit Plus] ++ lit "**")%list);
    try assumption; try reflexivity.
  - destruct d; [congruence | discriminate].
  - destruct d as [|c d]; [congruence|]. rewrite !append_cons.
    apply match_seq_miss; [left; reflexivity|].
    cbn [all_chars] in Hds. apply andb_true_iff in Hds as [Hc _].
    cbn [in_class]. destruct (Ascii.eqb _ c) eqn:E; [|reflexivity].
    apply Ascii.eqb_eq in E. subst c. discriminate.
  - apply (match_seq_needs "*"); [|exact Hpost]. cbn. auto 10.
Qed.

End Extractors2.

Section Extractors3.
Import PyStr Re.

(** X2.  A coin amount of zero is not reported as coins.  When the first
    bold span of the reply is [**⏣ ds**] with [ds] a number of value
    zero, the test [if not gained_coins] takes the amount for a missing
    one: [beg] and [crime] return [success = True] and record the span
    itself, ["⏣ ds"], as the item, with no ["coins"] entry. *)
Theorem beg_crime_zero_coins (description pre ds post : string) :
  Parser.strip_commas description = pre ++ "**⏣ " ++ ds ++ "**" ++ post ->
  lacks ["*"%char] pre = true -> is_number ds = true -> decimal ds = 0 ->
  let r := {| success := true; death := None;
              gain := Some {[kstr "items" := VItems [(1, Some ("⏣ " ++ ds))]]};
              loss := Some ∅; cooldown := None |} in
  Parser.beg description = r /\ Parser.crime description = r.
Proof.
  intros Hd Hpre Hds Hz r.
  assert (findall Pat.bold (Parser.strip_commas description) !! 0%nat = Some ("⏣ " ++ ds))
    as Hb.
  { rewrite Hd, (findall_bold_coins pre ds post Hpre Hds). reflexivity. }
  assert (findall Pat.tag ("⏣ " ++ ds) = []) as Ht.
  { apply findall_tag_none, coin_span_plain, Hds. }
  split.
  - unfold Parser.beg, Parser.beg_item, Parser.tempstring, getitem. rewrite Hb, Hd.
    rewrite (coin_amount_found pre ds post Hpre Hds), Hz, Ht. cbn [attempt].
    cbn [Parser.truthy_int Z.eqb negb lookup list_lookup mbind res_bind].
    unfold Parser.put_item, Parser.put_coins. cbn [Parser.truthy_int Z.eqb negb].
    rewrite insert_empty. reflexivity.
  - unfold Parser.crime, Parser.crime_item, Parser.tempstring, getitem. rewrite Hb, Hd.
    rewrite (coin_amount_found pre ds post Hpre Hds), Hz, Ht. cbn [attempt].
    cbn [Parser.truthy_int Z.eqb negb lookup list_lookup mbind res_bind].
    unfold Parser.put_item, Parser.put_coins. cbn [Parser.truthy_int Z.eqb negb].
    rewrite insert_empty. reflexivity.
Qed.

Lemma beg_crime_zero_coins_witness :
  let r := {| success := true; death := None;
              gain := Some {[kstr "items" := VItems [(1, Some "⏣ 0")]]};
              loss := Some ∅; cooldown := None |} in
  Parser.beg "You got **⏣ 0**" = r /\ Parser.crime "You got **⏣ 0**" = r.
Proof.
  apply (beg_crime_zero_coins "You got **⏣ 0**" "You got " "0" "");
    vm_compute; reflexivity.
Defined.

(** X4.  On a reply whose text, commas removed, has one bold span, the
    coin amount [**⏣ ds**], followed by no digit and with no other [*],
    [search] returns [success = True], an empty loss and the gain
    [{"coins": ds}], or the empty gain when the amount is zero. *)
Theorem search_coins_only (description pre ds post : string) :
  Parser.strip_commas description = pre ++ "**⏣ " ++ ds ++ "**" ++ post ->
  lacks ["*"%char] pre = true -> lacks ["*"%char] post = true ->
  ends_number post = true -> is_number ds = true ->
  Parser.search description
  = {| success := true; death := None;
       gain := Some (if decimal ds =? 0 then ∅
                     else {[kstr "coins" := VInt (decimal ds)]});
       loss := Some ∅; cooldown := None |}.
Proof.
  intros Hd Hpre Hpost He Hds.
  unfold Parser.search, Parser.search_item, getitem. rewrite Hd.
  rewrite (findall_amount_none pre ds post Hpre Hds Hpost He).
  cbn [lookup list_lookup mbind res_bind].
  rewrite (coin_amount_found pre ds post Hpre Hds). cbn [attempt Parser.is_some].
  unfold Parser.put_coins. cbn [Parser.truthy_int].
  destruct (decimal ds =? 0); cbn [negb]; [reflexivity|].
  rewrite insert_empty. reflexivity.
Qed.

Lemma search_coins_only_witness :
  Parser.search "You searched the couch and found **⏣ 2,300**!"
  = {| success := true; death := None;
       gain := Some {[kstr "coins" := VInt 2300]}; loss := Some ∅; cooldown := None |}.
Proof.
  apply (search_coins_only "You searched the couch and found **⏣ 2,300**!"
           "You searched the couch and found " "2300" "!"); vm_compute; reflexivity.
Defined.

(** X3.  Coins and an item.  When the first bold span of the reply is a
    coin amount [**⏣ ds**] other than zero and the next bold span is
    [**<t> name**], a tag followed by a name that is not empty and has no
    [<], [beg] and [crime] return [success = True] and the gain
    [{"coins": ds, "items": [{1: name}]}]: the item comes from the second
    bold span, without its tag. *)
Theorem beg_crime_coins_and_item (description pre ds mid t name post : string) :
  Parser.strip_commas description
  = pre ++ "**⏣ " ++ ds ++ "**" ++ mid ++ "**" ++ ("<" ++ t ++ "> " ++ name) ++ "**" ++ post ->
  lacks ["*"%char] pre = true -> lacks ["*"%char] mid = true ->
  is_number ds = true -> decimal ds <> 0 ->
  lacks ["*"%char; newline] t = true -> lacks [">"%char] t = true ->
  lacks ["*"%char; newline] name = true -> lacks ["<"%char] name = true ->
  name <> "" ->
  let r := {| success := true; death := None;
              gain := Some (<[kstr "items" := VItems [(1, Some name)]]>
                              {[kstr "coins" := VInt (decimal ds)]});
              loss := Some ∅; cooldown := None |} in
  Parser.beg description = r /\ Parser.crime description = r.
Proof.
  intros Hd Hpre Hmid Hds Hnz Ht Htg Hn Hnl Hne r.
  set (span := "<" ++ t ++ "> " ++ name) in *.
  assert (lacks ["*"%char; newline] span = true) as Hsp.
  { unfold span. rewrite !lacks_app, Ht, Hn. reflexivity. }
  assert (findall Pat.bold (Parser.strip_commas description) !! 1%nat = Some span) as Hb.
  { rewrite Hd, (findall_bold_coins pre ds _ Hpre Hds).
    rewrite (findall_bold_cons mid span post Hmid Hsp). reflexivity. }
  assert (lacks [">"%char; newline] t = true) as Ht'.
  { rewrite lacks_two in Ht |- *. apply andb_true_iff in Ht as [_ Ht]. rewrite Htg, Ht.
    reflexivity. }
  assert (stripped span = name) as Hs by (apply stripped_tagged; assumption).
  assert (Parser.truthy_str (Some name) = true) as Htr.
  { cbn. apply negb_true_iff, String.eqb_neq, Hne. }
  pose proof (truthy_nonzero _ Hnz) as Hc.
  assert (attempt (Parser.coin_amount (Parser.strip_commas description))
          = Some (decimal ds)) as Hcoin.
  { rewrite Hd, (coin_amount_found pre ds _ Hpre Hds). reflexivity. }
  split.
  - unfold Parser.beg. rewrite Hcoin, (beg_item_stripped _ _ span Hc Hb), Hs.
    unfold Parser.put_item, Parser.put_coins. rewrite Htr, Hc, insert_empty. reflexivity.
  - unfold Parser.crime. rewrite Hcoin.
    rewrite (crime_item_stripped (Some (decimal ds)) _ span), Hs by (rewrite Hc; exact Hb).
    unfold Parser.put_item, Parser.put_coins. rewrite Htr, Hc, insert_empty. reflexivity.
Qed.

Lemma beg_crime_coins_and_item_witness :
  let r := {| success := true; death := None;
              gain := Some (<[kstr "items" := VItems [(1, Some "Lucky Coin")]]>
                              {[kstr "coins" := VInt 250]});
              loss := Some ∅; cooldown := None |} in
  Parser.beg "Take **⏣ 250** and a **<:coin:77> Lucky Coin**!" = r
  /\ Parser.crime "Take **⏣ 250** and a **<:coin:77> Lucky Coin**!" = r.
Proof.
  apply (beg_crime_coins_and_item "Take **⏣ 250** and a **<:coin:77> Lucky Coin**!"
           "Take " "250" " and a " ":coin:77" "Lucky Coin" "!");
    vm_compute; first [reflexivity | discriminate].
Defined.

End Extractors3.

(** ** Replies with an item *)

Section Extractors4.
Import PyStr Re.

Lemma split_whole (sep : ascii) (s : string) :
  lacks [sep] s = true -> split sep s = [s].
Proof.
  induction s as [|c s IH]; [reflexivity|]. intros Hs.
  cbn [split]. rewrite Ascii.eqb_sym, (lacks_head _ _ _ Hs), (IH (lacks_tail _ _ _ Hs)).
  reflexivity.
Qed.

(** The text behind the first word. *)
Lemma join_drop_word (tok name : string) :
  lacks [" "%char] tok = true ->
  join " " (drop 1 (split " " (tok ++ " " ++ name))) = name.
Proof.
  intros Ht. change (tok ++ " " ++ name) with (tok ++ String " " name).
  rewrite (split_app_sep " " tok name Ht). cbn [drop]. apply join_split.
Qed.

Lemma lacks_star (s : string) :
  lacks ["*"%char; newline] s = true -> lacks ["*"%char] s = true.
Proof. rewrite lacks_two. intros [H _]%andb_true_iff. exact H. Qed.

(** X6.  On a reply whose text, commas removed, has one bold span
    [**tok name**], [tok] being its first word and [name] what follows
    its first space, and no other [*], [common1] (dig, fish, hunt) returns
    [success = True] and the gain [{"items": [{1: name}]}], or the empty
    gain when [name] is empty: the first word of the span is dropped and
    the amount is always 1. *)
Theorem common1_item (description pre tok name post : string) :
  Parser.strip_commas description = pre ++ "**" ++ (tok ++ " " ++ name) ++ "**" ++ post ->
  lacks ["*"%char] pre = true -> lacks ["*"%char] post = true ->
  lacks ["*"%char; newline] tok = true -> lacks [" "%char] tok = true ->
  lacks ["*"%char; newline] name = true ->
  Parser.common1 description
  = {| success := true; death := None;
       gain := Some (if String.eqb name "" then ∅
                     else {[kstr "items" := VItems [(1, Some name)]]});
       loss := Some ∅; cooldown := None |}.
Proof.
  intros Hd Hpre Hpost Htok Hsp Hname.
  assert (lacks ["*"%char; newline] (tok ++ " " ++ name) = true) as Hb.
  { rewrite !lacks_app, Htok, Hname. reflexivity. }
  unfold Parser.common1, getitem. rewrite Hd.
  rewrite (findall_catch_first pre _ post Hpre Hb Hpost). cbn [mbind res_bind attempt].
  rewrite (replace_wrapped "*" "*" _ (lacks_star _ Hb)), (join_drop_word tok name Hsp).
  unfold Parser.put_item. cbn [Parser.truthy_str Parser.is_some].
  destruct (String.eqb name ""); cbn [negb]; [reflexivity|].
  rewrite insert_empty. reflexivity.
Qed.

Lemma common1_item_witness :
  Parser.common1 "You cast out your line and brought back **1 Rare Fish**!"
  = {| success := true; death := None;
       gain := Some {[kstr "items" := VItems [(1, Some "Rare Fish")]]};
       loss := Some ∅; cooldown := None |}.
Proof.
  apply (common1_item "You cast out your line and brought back **1 Rare Fish**!"
           "You cast out your line and brought back " "1" "Rare Fish" "!");
    vm_compute; reflexivity.
Defined.

(** X7.  A catch named by one word is lost.  On a reply whose only bold
    span [**word**] holds no space, [common1] drops the word as the first
    one and returns [success = True] with an empty gain. *)
Theorem common1_one_word (description pre word post : string) :
  Parser.strip_commas description = pre ++ "**" ++ word ++ "**" ++ post ->
  lacks ["*"%char] pre = true -> lacks ["*"%char] post = true ->
  lacks ["*"%char; newline] word = true -> lacks [" "%char] word = true ->
  Parser.common1 description
  = {| success := true; death := None; gain := Some ∅; loss := Some ∅;
       cooldown := None |}.
Proof.
  intros Hd Hpre Hpost Hw Hsp.
  unfold Parser.common1, getitem. rewrite Hd.
  rewrite (findall_catch_first pre _ post Hpre Hw Hpost). cbn [mbind res_bind attempt].
  rewrite (replace_wrapped "*" "*" _ (lacks_star _ Hw)), (split_whole " " word Hsp).
  reflexivity.
Qed.

Lemma common1_one_word_witness :
  Parser.common1 "You dug up a **Worm**"
  = {| success := true; death := None; gain := Some ∅; loss := Some ∅;
       cooldown := None |}.
Proof.
  apply (common1_one_word "You dug up a **Worm**" "You dug up a " "Worm" "");
    vm_compute; reflexivity.
Defined.

(** X5.  On a reply whose text, commas removed, has one bold span
    [**dsx tok name**], with [ds] a number other than zero and [tok] the
    first word after the amount, and no other [*], [search] records the
    gain [{"items": [{ds: name}]}] and yet returns [success = False],
    since no coin amount was found. *)
Theorem search_item_only (description pre ds tok name post : string) :
  Parser.strip_commas description
  = pre ++ "**" ++ ds ++ "x " ++ (tok ++ " " ++ name) ++ "**" ++ post ->
  lacks ["*"%char] pre = true -> lacks ["*"%char] post = true ->
  is_number ds = true -> decimal ds <> 0 ->
  lacks ["*"%char; newline] tok = true -> lacks [" "%char] tok = true ->
  lacks ["*"%char; newline] name = true ->
  Parser.search description
  = {| success := false; death := None;
       gain := Some {[kstr "items" := VItems [(decimal ds, Some name)]]};
       loss := Some ∅; cooldown := None |}.
Proof.
  intros Hd Hpre Hpost Hds Hnz Htok Hsp Hname.
  set (body := tok ++ " " ++ name) in *.
  assert (lacks ["*"%char; newline] body = true) as Hb.
  { unfold body. rewrite !lacks_app, Htok, Hname. reflexivity. }
  assert (body <> "") as Hbne.
  { unfold body. destruct tok; discriminate. }
  destruct (is_number_digits ds Hds) as [Hdig _].
  destruct (digits_plain ds Hdig) as (Hd1 & _ & Hd3 & Hd4).
  assert (lacks ["*"%char] (ds ++ "x " ++ body) = true) as Hu.
  { rewrite !lacks_app, (lacks_star _ Hd1), (lacks_star _ Hb). reflexivity. }
  assert (Parser.search_item (Parser.strip_commas description)
          = (Some (decimal ds), Some name)) as Hitem.
  { unfold Parser.search_item, getitem. rewrite Hd.
    change (pre ++ "**" ++ ds ++ "x " ++ body ++ "**" ++ post)
      with (pre ++ "**" ++ ds ++ "x" ++ (" " ++ body ++ "**" ++ post)) at 1.
    rewrite (findall_amount_first pre ds _ Hpre Hds). cbn [mbind res_bind].
    change ("**" ++ ds ++ "x") with (String "*" "*" ++ ds ++ "x").
    rewrite (replace_head "*" "*" (ds ++ "x")) by (rewrite lacks_app, (lacks_star _ Hd1); reflexivity).
    change (ds ++ "x") with (ds ++ String "x" "").
    rewrite (replace_tail "x" "" ds Hd4), (py_int_number ds Hds).
    rewrite (findall_amount_item_first pre ds body post Hpre Hds Hb Hbne Hpost).
    replace ("**" ++ ds ++ "x " ++ body ++ "**")
      with (String "*" "*" ++ (ds ++ "x " ++ body) ++ String "*" "*")
      by (rewrite ?append_assoc, ?append_cons, ?append_nil_l; reflexivity).
    rewrite (replace_wrapped "*" "*" _ Hu).
    replace (ds ++ "x " ++ body) with ((ds ++ "x") ++ String " " body)
      by (rewrite ?append_assoc, ?append_cons, ?append_nil_l; reflexivity).
    rewrite (split_app_sep " " (ds ++ "x") body)
      by (rewrite lacks_app, Hd3; reflexivity).
    unfold body. change (tok ++ " " ++ name) with (tok ++ String " " name).
    rewrite (split_app_sep " " tok name Hsp). cbn [drop]. rewrite drop_0, join_split.
    reflexivity. }
  assert (attempt (Parser.coin_amount (Parser.strip_commas description)) = None) as Hcoin.
  { unfold Parser.coin_amount, getitem. rewrite Hd.
    replace (pre ++ "**" ++ ds ++ "x " ++ body ++ "**" ++ post)
      with (pre ++ "**" ++ (ds ++ "x " ++ body) ++ "**" ++ post)
      by (rewrite ?append_assoc, ?append_cons, ?append_nil_l; reflexivity).
    rewrite (findall_coins_none_digits pre ds ("x " ++ body) post Hpre Hu Hds Hpost).
    reflexivity. }
  unfold Parser.search. rewrite Hitem, Hcoin.
  cbn [Parser.is_some Parser.put_coins]. rewrite (truthy_nonzero _ Hnz), insert_empty.
  reflexivity.
Qed.

Lemma search_item_only_witness :
  Parser.search "You found **2x <:apple:5> Golden Apple** in the grass"
  = {| success := false; death := None;
       gain := Some {[kstr "items" := VItems [(2, Some "Golden Apple")]]};
       loss := Some ∅; cooldown := None |}.
Proof.
  apply (search_item_only "You found **2x <:apple:5> Golden Apple** in the grass"
           "You found " "2" "<:apple:5>" "Golden Apple" " in the grass");
    vm_compute; first [reflexivity | discriminate].
Defined.

End Extractors4.

(** ** Commas *)

Section Commas.
Import PyStr.

Lemma strip_commas_app (a b : string) :
  Parser.strip_commas (a ++ b) = Parser.strip_commas a ++ Parser.strip_commas b.
Proof.
  unfold Parser.strip_commas, replace. induction a as [|c a IH].
  - reflexivity.
  - rewrite append_cons. cbn [replace_from startswith String.length Nat.pred].
    cbn [startswith]. destruct (Ascii.eqb "," c) eqn:E.
    + rewrite ?append_nil_l. exact IH.
    + rewrite append_cons. f_equal. exact IH.
Qed.

(** X8.  A comma in the reply changes nothing for [beg], [search],
    [common1] and [crime]: a text and the same text with a comma put in at
    any place give the same result. *)
Theorem commas_ignored (a b : string) :
  Parser.beg (a ++ "," ++ b) = Parser.beg (a ++ b)
  /\ Parser.search (a ++ "," ++ b) = Parser.search (a ++ b)
  /\ Parser.common1 (a ++ "," ++ b) = Parser.common1 (a ++ b)
  /\ Parser.crime (a ++ "," ++ b) = Parser.crime (a ++ b).
Proof.
  assert (Parser.strip_commas (a ++ "," ++ b) = Parser.strip_commas (a ++ b)) as E.
  { rewrite !strip_commas_app. reflexivity. }
  unfold Parser.beg, Parser.search, Parser.common1, Parser.crime. rewrite E. auto.
Qed.

End Commas.

(** ** The lines of postmemes *)

Section Memes.
Import PyStr Re.

Lemma postmemes_line_coin (g g' : pydict) (i : string) :
  coin_line i = true -> Parser.postmemes_line g i = Ok g' ->
  exists m n, findall Pat.number i !! 0%nat = Some m /\ py_int m = Ok n
              /\ g' = <[kstr "coins" := VInt n]> g.
Proof.
  unfold coin_line, Parser.postmemes_line. intros -> H.
  unfold getitem in H. destruct (findall Pat.number i !! 0%nat) as [m|]; [|discriminate].
  cbn [mbind res_bind] in H. destruct (py_int m) as [n|] eqn:E; [|discriminate].
  cbn [mbind res_bind] in H. injection H as <-. eauto.
Qed.

Lemma postmemes_line_item (g g' : pydict) (i : string) :
  item_line i = true -> items_wf g -> Parser.postmemes_line g i = Ok g' ->
  exists m n, findall Pat.times i !! 0%nat = Some m /\ py_int (replace "x" "" m) = Ok n
              /\ g' = <[kstr "items" :=
                        VItems (items_of g ++ [(n, Some (join " " (drop 5 (split " " i))))])]> g.
Proof.
  unfold item_line, Parser.postmemes_line, items_wf, items_of.
  intros [Hc%negb_true_iff Hi]%andb_true_iff Hwf H. rewrite Hc, Hi in H.
  unfold getitem in H. destruct (findall Pat.times i !! 0%nat) as [m|]; [|discriminate].
  cbn [mbind res_bind] in H. destruct (py_int (replace "x" "" m)) as [n|] eqn:E; [|discriminate].
  cbn [mbind res_bind] in H. injection H as <-. exists m, n. split; [reflexivity|]. split; [exact E|].
  unfold Parser.append_item.
  destruct (g !! kstr "items") as [[| |l]|] eqn:Eg; try contradiction.
  - rewrite Eg. reflexivity.
  - rewrite lookup_insert_eq. rewrite insert_insert_eq. reflexivity.
Qed.

Lemma postmemes_line_other (g : pydict) (i : string) :
  coin_line i = false -> item_line i = false -> Parser.postmemes_line g i = Ok g.
Proof.
  unfold coin_line, item_line, Parser.postmemes_line. intros -> H.
  cbn [negb andb] in H. rewrite H. reflexivity.
Qed.

Lemma coin_item_line (i : string) : coin_line i = true -> item_line i = false.
Proof. unfold coin_line, item_line. intros ->. reflexivity. Qed.

Lemma items_wf_insert_coins (g : pydict) (v : pyval) :
  items_wf g -> items_wf (<[kstr "coins" := v]> g).
Proof. unfold items_wf. rewrite lookup_insert_ne by discriminate. auto. Qed.

Lemma items_wf_insert_items (g : pydict) (l : list (Z * option string)) :
  items_wf (<[kstr "items" := VItems l]> g).
Proof. unfold items_wf. rewrite lookup_insert_eq. exact I. Qed.

Lemma items_wf_empty : items_wf ∅.
Proof. unfold items_wf. rewrite lookup_empty. exact I. Qed.

(** What the loop leaves in [gain]: an entry per item line, in their
    order, after the entries it found there. *)
Lemma postmemes_loop_items (parsed : list string) (g g' : pydict) :
  items_wf g -> Parser.postmemes_loop g parsed = Ok g' ->
  exists new,
    items_of g' = (items_of g ++ new)%list
    /\ Forall2
         (fun i e =>
            snd e = Some (join " " (drop 5 (split " " i)))
            /\ exists m, findall Pat.times i !! 0%nat = Some m
                         /\ py_int (replace "x" "" m) = Ok (fst e))
         (List.filter item_line parsed) new
    /\ (g' !! kstr "items" = None <->
        g !! kstr "items" = None /\ List.filter item_line parsed = []).
Proof.
  revert g. induction parsed as [|i parsed IH]; intros g Hwf H.
  - injection H as <-. exists []. rewrite app_nil_r. repeat split; auto. tauto.
  - cbn [Parser.postmemes_loop] in H. apply bind_Ok in H as (g1 & E1 & H).
    cbn [List.filter]. destruct (item_line i) eqn:Ei.
    + destruct (postmemes_line_item g g1 i Ei Hwf E1) as (m & n & Hm & Hn & ->).
      destruct (IH _ (items_wf_insert_items _ _) H) as (new & Hitems & Hall & Hnone).
      exists ((n, Some (join " " (drop 5 (split " " i)))) :: new).
      split; [|split].
      * rewrite Hitems. unfold items_of at 1. rewrite lookup_insert_eq.
        rewrite <- app_assoc. reflexivity.
      * constructor; [|exact Hall]. cbn [fst snd]. eauto.
      * rewrite Hnone, lookup_insert_eq. split; intros [? ?]; discriminate.
    + assert (items_of g1 = items_of g /\ g1 !! kstr "items" = g !! kstr "items"
              /\ items_wf g1) as (Ho & Hl & Hwf1).
      { destruct (coin_line i) eqn:Ec.
        - destruct (postmemes_line_coin g g1 i Ec E1) as (m & n & _ & _ & ->).
          unfold items_of. rewrite lookup_insert_ne by discriminate.
          auto using items_wf_insert_coins.
        - rewrite (postmemes_line_other g i Ec Ei) in E1. injection E1 as <-. auto. }
      destruct (IH _ Hwf1 H) as (new & Hitems & Hall & Hnone).
      exists new. rewrite Hitems, Ho, Hnone, Hl. auto.
Qed.

(** The coins the loop leaves in [gain]: those of the last coin line. *)
Lemma postmemes_loop_coins (parsed : list string) (g g' : pydict) :
  Parser.postmemes_loop g parsed = Ok g' ->
  match last (List.filter coin_line parsed) with
  | Some i =>
      exists m n, findall Pat.number i !! 0%nat = Some m /\ py_int m = Ok n
                  /\ g' !! kstr "coins" = Some (VInt n)
  | None => g' !! kstr "coins" = g !! kstr "coins"
  end.
Proof.
  revert g. induction parsed as [|i parsed IH]; intros g H.
  - injection H as <-. reflexivity.
  - cbn [Parser.postmemes_loop] in H. apply bind_Ok in H as (g1 & E1 & H).
    specialize (IH _ H). cbn [List.filter]. destruct (coin_line i) eqn:Ec.
    + rewrite last_cons. destruct (last (List.filter coin_line parsed)); [exact IH|].
      destruct (postmemes_line_coin g g1 i Ec E1) as (m & n & Hm & Hn & ->).
      exists m, n. rewrite IH, lookup_insert_eq. auto.
    + destruct (last (List.filter coin_line parsed)); [exact IH|].
      rewrite IH. destruct (item_line i) eqn:Ei.
      * unfold Parser.postmemes_line in E1. unfold coin_line in Ec. rewrite Ec in E1.
        unfold item_line in Ei. rewrite Ec in Ei. cbn [negb andb] in Ei. rewrite Ei in E1.
        bind_inv E1. injection E1 as <-. unfold Parser.append_item.
        destruct (g !! kstr "items") as [[| |l]|] eqn:Eg; rewrite ?Eg, ?lookup_insert_eq;
          rewrite ?lookup_insert_ne by discriminate; reflexivity.
      * rewrite (postmemes_line_other g i Ec Ei) in E1. injection E1 as <-. reflexivity.
Qed.

(** The loop writes the keys ["coins"] and ["items"] only. *)
Lemma postmemes_loop_keys (parsed : list string) (g g' : pydict) (key : string + Z) :
  Parser.postmemes_loop g parsed = Ok g' ->
  key <> kstr "coins" -> key <> kstr "items" -> g' !! key = g !! key.
Proof.
  intros H Hc Hi. revert g H. induction parsed as [|i parsed IH]; intros g H.
  - injection H as <-. reflexivity.
  - cbn [Parser.postmemes_loop] in H. apply bind_Ok in H as (g1 & E1 & H).
    rewrite (IH _ H). unfold Parser.postmemes_line in E1.
    destruct (contains "⏣" i).
    + bind_inv E1. injection E1 as <-. apply lookup_insert_ne. congruence.
    + destruct (contains "<:" i); [|injection E1 as <-; reflexivity].
      bind_inv E1. injection E1 as <-. unfold Parser.append_item.
      destruct (g !! kstr "items") as [[| |l]|] eqn:Eg; rewrite ?Eg, ?lookup_insert_eq;
        rewrite ?lookup_insert_ne by congruence; reflexivity.
Qed.

(** A line the loop cannot read stops it. *)
Lemma postmemes_loop_raises (parsed : list string) (g : pydict) (i : string) :
  i ∈ parsed ->
  coin_line i = true /\ no_digit i = true
  \/ item_line i = true /\ lacks ["x"%char] i = true ->
  exists e, Parser.postmemes_loop g parsed = Raise e.
Proof.
  intros Hin Hbad. revert g. induction parsed as [|j parsed IH]; intros g.
  - inversion Hin.
  - cbn [Parser.postmemes_loop].
    destruct (Parser.postmemes_line g j) as [g1|e] eqn:E; [|eauto].
    cbn [mbind res_bind]. apply elem_of_cons in Hin as [<- | Hin]; [|auto].
    exfalso. destruct Hbad as [[Hc Hn] | [Hi Hx]].
    + destruct (postmemes_line_coin g g1 i Hc E) as (m & n & Hm & _).
      rewrite (findall_number_none i Hn) in Hm. discriminate.
    + unfold Parser.postmemes_line in E. unfold item_line in Hi.
      apply andb_true_iff in Hi as [Hc%negb_true_iff Hi]. rewrite Hc, Hi in E.
      rewrite (findall_needs Pat.times "x" i) in E; [discriminate | cbn; auto | exact Hx].
Qed.

(** X9.  The items of [postmemes].  When the reply holds [**You Received]
    and [postmemes] returns, the ["items"] list of the gain has one entry
    per parsed line that holds ["<:"] and no coin sign, in the order of
    the lines: the name is the line from its sixth word on and the amount
    is the first [Nx] of the line.  There is no ["items"] key when there
    is no such line, and the gain has no key other than ["coins"] and
    ["items"]. *)
Theorem postmemes_items (description : string) (r : CommandResult) :
  signal Postmemes description = true ->
  Parser.postmemes description = Ok r ->
  exists g,
    gain r = Some g
    /\ Forall2
         (fun i e =>
            snd e = Some (join " " (drop 5 (split " " i)))
            /\ exists m, findall Pat.times i !! 0%nat = Some m
                         /\ py_int (replace "x" "" m) = Ok (fst e))
         (List.filter item_line (Parser.postmemes_lines description)) (items_of g)
    /\ (g !! kstr "items" = None <->
        List.filter item_line (Parser.postmemes_lines description) = [])
    /\ (forall key, key <> kstr "coins" -> key <> kstr "items" -> g !! key = None).
Proof.
  cbn [signal]. unfold Parser.postmemes. intros -> H.
  apply bind_Ok in H as (g & E & H). injection H as <-. exists g.
  split; [reflexivity|].
  destruct (postmemes_loop_items _ ∅ g items_wf_empty E) as (new & Hitems & Hall & Hnone).
  change (items_of ∅) with (@nil (Z * option string)) in Hitems. cbn [app] in Hitems.
  rewrite Hitems. split; [exact Hall|]. split.
  - rewrite Hnone, lookup_empty. tauto.
  - intros key Hc Hi. rewrite (postmemes_loop_keys _ ∅ g key E Hc Hi). apply lookup_empty.
Qed.

Lemma postmemes_items_witness :
  let description :=
    "a" ++ String newline ("b" ++ String newline ("c" ++ String newline
      ("**You Received:**" ++ String newline
         ("- ⏣ 1,200" ++ String newline "- 2x <:p:1> to you: Pepe Trophy")))) in
  let r :=
    CommandResult_init true None
      (Some (<[kstr "items" := VItems [(2, Some "Pepe Trophy")]]>
               {[kstr "coins" := VInt 1200]}))
      default_dict None in
  exists g,
    gain r = Some g
    /\ Forall2
         (fun i e =>
            snd e = Some (join " " (drop 5 (split " " i)))
            /\ exists m, findall Pat.times i !! 0%nat = Some m
                         /\ py_int (replace "x" "" m) = Ok (fst e))
         (List.filter item_line (Parser.postmemes_lines description)) (items_of g)
    /\ (g !! kstr "items" = None <->
        List.filter item_line (Parser.postmemes_lines description) = [])
    /\ (forall key, key <> kstr "coins" -> key <> kstr "items" -> g !! key = None).
Proof.
  intros description r. apply (postmemes_items description r); vm_compute; reflexivity.
Defined.

(** X10.  The coins of [postmemes].  When the reply holds
    [**You Received] and [postmemes] returns, the gain has the key
    ["coins"] exactly when a parsed line holds the coin sign, and its
    value is the first number of the last such line: a later line
    replaces the amount of an earlier one. *)
Theorem postmemes_last_coins (description : string) (r : CommandResult) :
  signal Postmemes description = true ->
  Parser.postmemes description = Ok r ->
  exists g,
    gain r = Some g
    /\ match last (List.filter coin_line (Parser.postmemes_lines description)) with
       | Some i =>
           exists m n, findall Pat.number i !! 0%nat = Some m /\ py_int m = Ok n
                       /\ g !! kstr "coins" = Some (VInt n)
       | None => g !! kstr "coins" = None
       end.
Proof.
  cbn [signal]. unfold Parser.postmemes. intros -> H.
  apply bind_Ok in H as (g & E & H). injection H as <-. exists g.
  split; [reflexivity|].
  pose proof (postmemes_loop_coins _ ∅ g E) as Hc.
  destruct (last _); [exact Hc|]. rewrite Hc. apply lookup_empty.
Qed.

Lemma postmemes_last_coins_witness :
  let description :=
    "a" ++ String newline ("b" ++ String newline ("c" ++ String newline
      ("**You Received:**" ++ String newline
         ("- ⏣ 1,200" ++ String newline "- ⏣ 35 from 2 fans")))) in
  let r :=
    CommandResult_init true None (Some {[kstr "coins" := VInt 35]}) default_dict None in
  exists g,
    gain r = Some g
    /\ match last (List.filter coin_line (Parser.postmemes_lines description)) with
       | Some i =>
           exists m n, findall Pat.number i !! 0%nat = Some m /\ py_int m = Ok n
                       /\ g !! kstr "coins" = Some (VInt n)
       | None => g !! kstr "coins" = None
       end.
Proof.
  intros description r. apply (postmemes_last_coins description r); vm_compute; reflexivity.
Defined.

(** X11.  [postmemes] raises on a line it cannot read.  When the reply
    holds [**You Received] and one of the parsed lines holds the coin sign
    and no digit, or holds ["<:"], no coin sign and no [x], [postmemes]
    raises an exception instead of returning a result. *)
Theorem postmemes_unreadable_line (description i : string) :
  signal Postmemes description = true ->
  i ∈ Parser.postmemes_lines description ->
  coin_line i = true /\ no_digit i = true
  \/ item_line i = true /\ lacks ["x"%char] i = true ->
  exists e, Parser.postmemes description = Raise e.
Proof.
  cbn [signal]. unfold Parser.postmemes. intros -> Hin Hbad.
  destruct (postmemes_loop_raises _ ∅ i Hin Hbad) as (e & ->). exists e. reflexivity.
Qed.

Lemma postmemes_unreadable_line_witness :
  (exists e,
     Parser.postmemes
       ("a" ++ String newline ("b" ++ String newline ("c" ++ String newline
          ("**You Received:**" ++ String newline "- <:p:1> Pepe Trophy")))) = Raise e)
  /\ (exists e,
        Parser.postmemes
          ("a" ++ String newline ("b" ++ String newline ("c" ++ String newline
             ("**You Received:**" ++ String newline "- ⏣ nothing")))) = Raise e).
Proof.
  split.
  - apply (postmemes_unreadable_line _ "- <:p:1> Pepe Trophy").
    + vm_compute. reflexivity.
    + vm_compute. apply elem_of_cons; right; apply elem_of_cons; left; reflexivity.
    + right. split; vm_compute; reflexivity.
  - apply (postmemes_unreadable_line _ "- ⏣ nothing").
    + vm_compute. reflexivity.
    + vm_compute. apply elem_of_cons; right; apply elem_of_cons; left; reflexivity.
    + left. split; vm_compute; reflexivity.
Defined.

End Memes.

(** ** Trades and cooldowns *)

Section Trades.
Import PyStr Re.

(** X12.  What was traded is taken from the caller, not from the reply.
    On the same reply and with any two pairs of item and quantity, [buy]
    raises the same exception or returns the same [success] and the same
    loss, the gain of a success being [{quantity: item}] as supplied; and
    so [sell], with gain and loss exchanged. *)
Theorem trade_identity_from_caller (description item item' : string) (quantity quantity' : Z) :
  match Parser.buy description item quantity, Parser.buy description item' quantity' with
  | Ok r, Ok r' =>
      success r = success r' /\ loss r = loss r'
      /\ (success r = true ->
          gain r = Some {[kint quantity := VStr item]}
          /\ gain r' = Some {[kint quantity' := VStr item']})
  | Raise e, Raise e' => e = e'
  | _, _ => False
  end
  /\ match Parser.sell description item quantity, Parser.sell description item' quantity' with
     | Ok r, Ok r' =>
         success r = success r' /\ gain r = gain r'
         /\ (success r = true ->
             loss r = Some {[kint quantity := VStr item]}
             /\ loss r' = Some {[kint quantity' := VStr item']})
     | Raise e, Raise e' => e = e'
     | _, _ => False
     end.
Proof.
  unfold Parser.buy, Parser.sell. split.
  - destruct (_ && _).
    + destruct (Parser.price 1 _) as [paid|e]; cbn [mbind res_bind]; [|reflexivity].
      repeat split.
    + repeat split; discriminate.
  - destruct (_ && _).
    + destruct (Parser.price 0 _) as [paid|e]; cbn [mbind res_bind]; [|reflexivity].
      repeat split.
    + repeat split; discriminate.
Qed.

(** X13.  A confirmed trade without its price raises.  When the reply
    holds the two confirmation phrases, [buy] and [sell] raise
    [IndexError] on a reply without [*]; and [buy], which reads the second
    bold span, raises [IndexError] on a reply whose text, commas removed,
    has one bold span only. *)
Theorem trade_without_price (description item : string) (quantity : Z)
    (pre c post : string) :
  (lacks ["*"%char] description = true ->
   (signal (Buy item quantity) description = true ->
    Parser.buy description item quantity = Raise IndexError)
   /\ (signal (Sell item quantity) description = true ->
       Parser.sell description item quantity = Raise IndexError))
  /\ (Parser.strip_commas description = pre ++ "**" ++ c ++ "**" ++ post ->
      lacks ["*"%char] pre = true -> lacks ["*"%char; newline] c = true ->
      lacks ["*"%char] post = true ->
      signal (Buy item quantity) description = true ->
      Parser.buy description item quantity = Raise IndexError).
Proof.
  split.
  - intros Hd. pose proof (findall_bold_none _ (strip_commas_lacks _ _ Hd)) as Hb.
    split; intros Hs; cbn [signal] in Hs.
    + unfold Parser.buy, Parser.price, getitem. rewrite Hs, Hb. reflexivity.
    + unfold Parser.sell, Parser.price, getitem. rewrite Hs, Hb. reflexivity.
  - intros Hd Hpre Hc Hpost Hs. cbn [signal] in Hs.
    unfold Parser.buy, Parser.price, getitem.
    rewrite Hs, Hd, (findall_bold_cons pre c post Hpre Hc), (findall_bold_none post Hpost).
    reflexivity.
Qed.

Lemma trade_without_price_witness :
  Parser.buy "You bought it and paid nothing" "apple" 1 = Raise IndexError
  /\ Parser.sell "You sold it and got paid nothing" "apple" 1 = Raise IndexError
  /\ Parser.buy "You bought 2 Apple and paid **⏣ 500**" "apple" 2 = Raise IndexError.
Proof.
  split; [|split].
  - apply (proj1 (trade_without_price "You bought it and paid nothing" "apple" 1 "" "" ""));
      vm_compute; reflexivity.
  - apply (proj1 (trade_without_price "You sold it and got paid nothing" "apple" 1 "" "" ""));
      vm_compute; reflexivity.
  - apply (proj2 (trade_without_price "You bought 2 Apple and paid **⏣ 500**" "apple" 2
                    "You bought 2 Apple and paid " "⏣ 500" ""));
      vm_compute; reflexivity.
Defined.

(** X14.  [cooldown] raises [IndexError] on a reply without a time tag:
    on a text without [<] or without [>], and on a text whose first
    [<...>] span is ASCII and holds no digit.  The witness is a text that
    [check_cooldown] accepts. *)
Theorem cooldown_without_tag (k : clock) (description pre c post : string) :
  (lacks ["<"%char] description = true \/ lacks [">"%char] description = true ->
   Parser.cooldown k description = Raise IndexError)
  /\ (description = pre ++ "<" ++ c ++ ">" ++ post ->
      lacks ["<"%char] pre = true -> lacks [">"%char; newline] c = true ->
      ascii_only c = true -> no_digit c = true ->
      Parser.cooldown k description = Raise IndexError).
Proof.
  split.
  - intros H. unfold Parser.cooldown, Parser.tagged_time, getitem.
    assert (findall Pat.tag description = []) as ->; [|reflexivity].
    destruct H as [H | H].
    + apply (findall_needs Pat.tag "<" _); [cbn; auto | exact H].
    + apply (findall_needs Pat.tag ">" _); [cbn; auto | exact H].
  - intros -> Hpre Hc _ Hn. unfold Parser.cooldown, Parser.tagged_time, getitem.
    rewrite (findall_tag_first pre c post Hpre Hc). cbn [mbind res_bind].
    change Pat.timestamp with Pat.number. rewrite (findall_number_none c Hn). reflexivity.
Qed.

Lemma cooldown_without_tag_witness :
  let k := Clock 1699999990000000 (fun _ => 0) 253402300799 in
  Parser.check_cooldown "This command is on cooldown, your cooldown is 5 seconds" = true
  /\ Parser.cooldown k "This command is on cooldown, your cooldown is 5 seconds"
     = Raise IndexError
  /\ Parser.cooldown k "The default cooldown is <b>long</b>" = Raise IndexError.
Proof.
  intros k. split; [reflexivity|]. split.
  - apply (proj1 (cooldown_without_tag k _ "" "" "")). left. vm_compute. reflexivity.
  - apply (proj2 (cooldown_without_tag k "The default cooldown is <b>long</b>"
                    "The default cooldown is " "b" "long</b>")); vm_compute; reflexivity.
Defined.

(** X15.  A text that holds a cooldown notice is a cooldown notice:
    [check_cooldown] accepts every text with an accepted text inside. *)
Theorem check_cooldown_embedded (pre description post : string) :
  Parser.check_cooldown description = true ->
  Parser.check_cooldown (pre ++ description ++ post) = true.
Proof.
  unfold Parser.check_cooldown.
  intros [[[H1 H2]%andb_true_iff H3]%andb_true_iff H4]%andb_true_iff.
  rewrite !(contains_app_pre _ pre (description ++ post)) by (apply contains_app_r; assumption).
  reflexivity.
Qed.

Lemma check_cooldown_embedded_witness :
  Parser.check_cooldown
    ("He said: " ++ "this command has a cooldown, the cooldown is 5 seconds" ++ " - lol")
  = true.
Proof. apply check_cooldown_embedded. vm_compute. reflexivity. Defined.

End Trades.

(** ** Configuration and the stored cooldown *)

Section Settings.

Lemma upper_char_idem (c : ascii) :
  Config.upper_char (Config.upper_char c) = Config.upper_char c.
Proof.
  destruct c as [[] [] [] [] [] [] [] []]; reflexivity.
Qed.

Lemma upper_idem (s : string) : Config.upper (Config.upper s) = Config.upper s.
Proof.
  induction s as [|c s IH]; [reflexivity|].
  cbn [Config.upper]. rewrite upper_char_idem, IH. reflexivity.
Qed.

(** X22.  What a built configuration holds.  When [Config] accepts its
    arguments (the option in ASCII), the configuration holds the token,
    which is not empty, the channel, which is not zero, the mode as given
    and the option in upper case, which is ["DISK"] or ["MEM"]; and a
    configuration built again from these fields is the same one. *)
Theorem config_built (token : string) (channel_id : option Z) (dm_mode : bool)
    (resource_intensivity : string) (c : Config.t) :
  ascii_only resource_intensivity = true ->
  Config.init token channel_id dm_mode resource_intensivity = Config.Built c ->
  Config.token c = token /\ token <> ""
  /\ channel_id = Some (Config.channel_id c) /\ Config.channel_id c <> 0
  /\ Config.dm_mode c = dm_mode
  /\ Config.resource_intensivity c = Config.upper resource_intensivity
  /\ (Config.resource_intensivity c = "DISK" \/ Config.resource_intensivity c = "MEM")
  /\ Config.init (Config.token c) (Some (Config.channel_id c)) (Config.dm_mode c)
       (Config.resource_intensivity c) = Config.Built c.
Proof.
  intros _. unfold Config.init.
  destruct (String.eqb token "") eqn:Et; [discriminate|].
  destruct channel_id as [id|]; [|discriminate].
  destruct (id =? 0) eqn:Ei; [discriminate|].
  destruct (_ || _) eqn:Er; [|discriminate].
  intros [= <-]. cbn [Config.token Config.channel_id Config.dm_mode Config.resource_intensivity].
  pose proof (proj1 (String.eqb_neq _ _) Et) as Ht.
  pose proof (proj1 (Z.eqb_neq _ _) Ei) as Hi.
  repeat split; auto.
  - apply orb_true_iff in Er as [E|E]; apply String.eqb_eq in E; auto.
  - rewrite Et, Ei, upper_idem, Er. reflexivity.
Qed.

Lemma config_built_witness :
  let c := Config.mk "abc" 42 false "DISK" in
  Config.token c = "abc" /\ "abc" <> ""
  /\ Some 42 = Some (Config.channel_id c) /\ Config.channel_id c <> 0
  /\ Config.dm_mode c = false
  /\ Config.resource_intensivity c = Config.upper "Disk"
  /\ (Config.resource_intensivity c = "DISK" \/ Config.resource_intensivity c = "MEM")
  /\ Config.init (Config.token c) (Some (Config.channel_id c)) (Config.dm_mode c)
       (Config.resource_intensivity c) = Config.Built c.
Proof.
  intros c. apply (config_built "abc" (Some 42) false "Disk" c); reflexivity.
Defined.

End Settings.

Section Rounding.



End Rounding.

(** ** More on the cache *)

Section Store.
Context {Id Payload : Type} `{Countable Id}.
Implicit Types (c : Cache.t Id Payload) (nonce other : string) (l : list string).

Lemma remove_first_split nonce l :
  nonce ∈ l ->
  exists l1 l2, l = (l1 ++ nonce :: l2)%list /\ (nonce ∉ l1)
                /\ Cache.remove_first nonce l = (l1 ++ l2)%list.
Proof.
  induction l as [|y l IH]; [intros Hin; inversion Hin|].
  intros Hin. cbn [Cache.remove_first]. destruct (String.eqb y nonce) eqn:E.
  - apply String.eqb_eq in E as ->. exists [], l. split; [reflexivity|].
    split; [apply not_elem_of_nil | reflexivity].
  - apply String.eqb_neq in E. apply elem_of_cons in Hin as [-> | Hin]; [congruence|].
    destruct (IH Hin) as (l1 & l2 & -> & Hn & ->). exists (y :: l1), l2.
    split; [reflexivity|]. split; [|reflexivity].
    apply not_elem_of_cons. split; [congruence | exact Hn].
Qed.

Lemma remove_first_other nonce other l :
  other <> nonce -> other ∈ Cache.remove_first nonce l <-> other ∈ l.
Proof.
  intros Hne. induction l as [|y l IH]; [reflexivity|].
  cbn [Cache.remove_first]. destruct (String.eqb y nonce) eqn:E.
  - apply String.eqb_eq in E as ->. rewrite elem_of_cons. tauto.
  - rewrite !elem_of_cons, IH. reflexivity.
Qed.

Lemma remove_first_nodup nonce l : NoDup l -> nonce ∉ Cache.remove_first nonce l.
Proof.
  induction 1 as [|y l Hy Hl IH]; [apply not_elem_of_nil|].
  cbn [Cache.remove_first]. destruct (String.eqb y nonce) eqn:E.
  - apply String.eqb_eq in E as ->. exact Hy.
  - apply String.eqb_neq in E. apply not_elem_of_cons. split; [congruence | exact IH].
Qed.

Lemma remove_first_commute nonce other l :
  Cache.remove_first nonce (Cache.remove_first other l)
  = Cache.remove_first other (Cache.remove_first nonce l).
Proof.
  destruct (decide (nonce = other)) as [->|Hne]; [reflexivity|].
  induction l as [|y l IH]; [reflexivity|].
  cbn [Cache.remove_first].
  destruct (String.eqb y other) eqn:Eo, (String.eqb y nonce) eqn:En;
    cbn [Cache.remove_first]; rewrite ?Eo, ?En; try reflexivity.
  - apply String.eqb_eq in Eo, En. congruence.
  - rewrite IH. reflexivity.
Qed.

(** X17.  After [clear] the token is gone: it is no key of
    [nonce_message_map] nor of [message_create], the update of the message
    it stood for is gone from [message_updates], the raw list is empty,
    and the token is in neither interaction list when that list held no
    entry twice. *)
Theorem clear_forgets_token c nonce :
  let c' := Cache.clear nonce c in
  Cache.nonce_message_map c' !! nonce = None
  /\ Cache.message_create c' !! nonce = None
  /\ Cache.raw_message_updates c' = []
  /\ (forall id, Cache.nonce_message_map c !! nonce = Some id ->
                 Cache.message_updates c' !! id = None)
  /\ (NoDup (Cache.interaction_create c) -> nonce ∉ Cache.interaction_create c')
  /\ (NoDup (Cache.interaction_success c) -> nonce ∉ Cache.interaction_success c').
Proof.
  unfold Cache.clear.
  destruct (Cache.nonce_message_map c !! nonce) as [relevant|] eqn:E; cbn.
  - rewrite !lookup_delete_eq. repeat split; auto using remove_first_nodup.
    intros id [= <-]. apply lookup_delete_eq.
  - rewrite lookup_delete_eq. repeat split; auto using remove_first_nodup. discriminate.
Qed.

(** X18.  [clear] takes one occurrence from the interaction lists: a
    list that holds the token loses its first occurrence and nothing
    else, so a token listed twice is still listed afterwards. *)
Theorem clear_first_occurrence c nonce :
  (nonce ∈ Cache.interaction_create c ->
   exists l1 l2,
     Cache.interaction_create c = (l1 ++ nonce :: l2)%list /\ (nonce ∉ l1)
     /\ Cache.interaction_create (Cache.clear nonce c) = (l1 ++ l2)%list)
  /\ (nonce ∈ Cache.interaction_success c ->
      exists l1 l2,
        Cache.interaction_success c = (l1 ++ nonce :: l2)%list /\ (nonce ∉ l1)
        /\ Cache.interaction_success (Cache.clear nonce c) = (l1 ++ l2)%list).
Proof.
  split; intros Hin;
    destruct (remove_first_split nonce _ Hin) as (l1 & l2 & H1 & H2 & H3);
    exists l1, l2; (split; [exact H1|]); (split; [exact H2|]);
    unfold Cache.clear; destruct (Cache.nonce_message_map c !! nonce); exact H3.
Qed.

(** X19.  [clear] leaves the other tokens alone: another token keeps its
    entries in [nonce_message_map] and [message_create] and its place in
    the interaction lists, and [message_updates] keeps every entry but the
    one of the message the cleared token stood for. *)
Theorem clear_keeps_others c nonce other :
  other <> nonce ->
  let c' := Cache.clear nonce c in
  Cache.nonce_message_map c' !! other = Cache.nonce_message_map c !! other
  /\ Cache.message_create c' !! other = Cache.message_create c !! other
  /\ (other ∈ Cache.interaction_create c' <-> other ∈ Cache.interaction_create c)
  /\ (other ∈ Cache.interaction_success c' <-> other ∈ Cache.interaction_success c)
  /\ (forall id, Cache.nonce_message_map c !! nonce <> Some id ->
                 Cache.message_updates c' !! id = Cache.message_updates c !! id).
Proof.
  intros Hne. unfold Cache.clear.
  destruct (Cache.nonce_message_map c !! nonce) as [relevant|] eqn:E; cbn.
  - rewrite !lookup_delete_ne by congruence.
    repeat split; try (apply remove_first_other; assumption);
      try (apply remove_first_other; assumption).
    intros id Hid. apply lookup_delete_ne. congruence.
  - rewrite lookup_delete_ne by congruence.
    repeat split; try (apply remove_first_other; assumption);
      try (apply remove_first_other; assumption).
Qed.

(** X20.  Clearing a token twice is clearing it once, on a cache whose
    interaction lists hold no entry twice. *)
Theorem clear_twice c nonce :
  NoDup (Cache.interaction_create c) -> NoDup (Cache.interaction_success c) ->
  Cache.clear nonce (Cache.clear nonce c) = Cache.clear nonce c.
Proof.
  intros Hc Hs. unfold Cache.clear.
  destruct (Cache.nonce_message_map c !! nonce) as [relevant|] eqn:E; cbn.
  - rewrite lookup_delete_eq. rewrite delete_delete_eq.
    rewrite (remove_first_absent nonce _ (remove_first_nodup nonce _ Hc)).
    rewrite (remove_first_absent nonce _ (remove_first_nodup nonce _ Hs)). reflexivity.
  - rewrite E. rewrite delete_delete_eq.
    rewrite (remove_first_absent nonce _ (remove_first_nodup nonce _ Hc)).
    rewrite (remove_first_absent nonce _ (remove_first_nodup nonce _ Hs)). reflexivity.
Qed.

(** X21.  Two clears give the same cache in either order. *)
Theorem clear_commutes c nonce other :
  Cache.clear nonce (Cache.clear other c) = Cache.clear other (Cache.clear nonce c).
Proof.
  destruct (decide (nonce = other)) as [->|Hne]; [reflexivity|].
  unfold Cache.clear.
  destruct (Cache.nonce_message_map c !! nonce) as [a|] eqn:Ea,
           (Cache.nonce_message_map c !! other) as [b|] eqn:Eb; cbn;
    rewrite ?lookup_delete_ne by congruence; rewrite ?Ea, ?Eb;
    f_equal;
    first [reflexivity | apply remove_first_commute | apply (delete_delete (M := gmap _))].
Qed.

End Store.

Section StoreExamples.

Lemma clear_forgets_token_witness :
  let c := Cache.mk (Id := Z) (Payload := Z)
             {["n" := 7]} ["n"; "m"] ["n"] [1; 2] {["n" := 10]} {[7 := 11; 8 := 12]} in
  let c' := Cache.clear "n" c in
  Cache.nonce_message_map c' !! "n" = None
  /\ Cache.message_create c' !! "n" = None
  /\ Cache.raw_message_updates c' = []
  /\ Cache.message_updates c' !! 7 = None
  /\ ("n" ∉ Cache.interaction_create c')
  /\ ("n" ∉ Cache.interaction_success c').
Proof.
  intros c c'. destruct (clear_forgets_token c "n") as (H1 & H2 & H3 & H4 & H5 & H6).
  split; [exact H1|]. split; [exact H2|]. split; [exact H3|].
  split; [apply H4; reflexivity|]. split.
  - apply H5. apply NoDup_cons. split; [|apply NoDup_singleton].
    intros Hin%list_elem_of_singleton. discriminate.
  - apply H6. apply NoDup_singleton.
Defined.

Lemma clear_first_occurrence_witness :
  let c := Cache.mk (Id := Z) (Payload := Z)
             ∅ ["m"; "n"; "k"; "n"] ["n"] [] ∅ ∅ in
  (exists l1 l2,
     Cache.interaction_create c = (l1 ++ "n" :: l2)%list /\ ("n" ∉ l1)
     /\ Cache.interaction_create (Cache.clear "n" c) = (l1 ++ l2)%list)
  /\ (exists l1 l2,
        Cache.interaction_success c = (l1 ++ "n" :: l2)%list /\ ("n" ∉ l1)
        /\ Cache.interaction_success (Cache.clear "n" c) = (l1 ++ l2)%list).
Proof.
  intros c. destruct (clear_first_occurrence c "n") as [H1 H2]. split.
  - apply H1. apply elem_of_cons; right. apply elem_of_cons; left. reflexivity.
  - apply H2. apply elem_of_cons; left. reflexivity.
Defined.

Lemma clear_keeps_others_witness :
  let c := Cache.mk (Id := Z) (Payload := Z)
             {["n" := 7; "m" := 8]} ["n"; "m"] ["m"] [1] {["m" := 10]} {[7 := 11; 8 := 12]} in
  let c' := Cache.clear "n" c in
  Cache.nonce_message_map c' !! "m" = Cache.nonce_message_map c !! "m"
  /\ Cache.message_create c' !! "m" = Cache.message_create c !! "m"
  /\ ("m" ∈ Cache.interaction_create c' <-> "m" ∈ Cache.interaction_create c)
  /\ ("m" ∈ Cache.interaction_success c' <-> "m" ∈ Cache.interaction_success c)
  /\ Cache.message_updates c' !! 8 = Cache.message_updates c !! 8.
Proof.
  intros c c'.
  destruct (clear_keeps_others c "n" "m" ltac:(discriminate)) as (H1 & H2 & H3 & H4 & H5).
  split; [exact H1|]. split; [exact H2|]. split; [exact H3|]. split; [exact H4|].
  apply H5. vm_compute. discriminate.
Defined.

Lemma clear_twice_witness :
  let c := Cache.mk (Id := Z) (Payload := Z)
             {["n" := 7]} ["n"; "m"] ["n"] [1; 2] {["n" := 10]} {[7 := 11; 8 := 12]} in
  Cache.clear "n" (Cache.clear "n" c) = Cache.clear "n" c.
Proof.
  intros c. apply clear_twice.
  - apply NoDup_cons. split; [|apply NoDup_singleton].
    intros Hin%list_elem_of_singleton. discriminate.
  - apply NoDup_singleton.
Defined.

End StoreExamples.
